(** * iro: colour validation, conversion, contrast and theme derivation

    A shallow embedding of [src/services/colors.js].

    The module is dynamically typed JavaScript, so values are modelled by
    a small universe [jsval]; JavaScript numbers are IEEE binary64 values,
    rendered here by Rocq's primitive floats, so that the validator, the
    YIQ heuristic and the theme pipeline run inside Rocq on concrete
    inputs.  What the file imports ([./converter], [./utils], the
    [gradstop] package) and the parts of two built-ins that are not
    re-implemented are gathered in a record [Externals]; every function
    below is parametric in it.

    Strings are [string]s of 8-bit characters, read as the UTF-16 code
    units below 256. *)

From Stdlib Require Import ZArith List String Ascii Bool Lia.
From Stdlib Require Import Floats Uint63.
From Stdlib Require Import Reals Lra.
Import ListNotations.

Local Open Scope list_scope.
Local Open Scope string_scope.

Set Warnings "-register-all,-inexact-float".

(* ===================================================================== *)
(** ** JavaScript values, exceptions *)
(* ===================================================================== *)

Inductive jsval : Type :=
| JUndefined
| JNull
| JBool (b : bool)
| JNum (x : float)
| JStr (s : string)
| JArr (l : list jsval).

(** The only exception the module can provoke is a [TypeError]: reading a
    property of [undefined] or [null], or calling something that is not a
    function. *)
Inductive error : Type := TypeError.

Inductive outcome (A : Type) : Type :=
| Ok (a : A)
| Throw (e : error).

Arguments Ok {A} a.
Arguments Throw {A} e.

Definition bind {A B : Type} (r : outcome A) (k : A -> outcome B) : outcome B :=
  match r with
  | Ok a => k a
  | Throw e => Throw e
  end.

Declare Scope js_scope.
Delimit Scope js_scope with js.
Notation "'let*' x ':=' r 'in' k" := (bind r (fun x => k))
  (at level 10, x name, r at level 100, k at level 200) : js_scope.
Local Open Scope js_scope.

Definition typeof (v : jsval) : string :=
  match v with
  | JUndefined => "undefined"
  | JNull => "object"
  | JBool _ => "boolean"
  | JNum _ => "number"
  | JStr _ => "string"
  | JArr _ => "object"
  end.

Definition ToBoolean (v : jsval) : bool :=
  match v with
  | JUndefined | JNull => false
  | JBool b => b
  | JNum x => negb (PrimFloat.eqb x 0 || is_nan x)
  | JStr s => negb (s =? "")
  | JArr _ => true
  end.

(** [a[i]]: an index out of range reads [undefined]. *)
Definition js_index (l : list jsval) (i : nat) : jsval :=
  nth i l JUndefined.

(** [v.length] where [typeof v] is ["object"]: arrays have a length, and
    [null] has no properties at all. *)
Definition object_length (v : jsval) : outcome nat :=
  match v with
  | JArr l => Ok (List.length l)
  | _ => Throw TypeError
  end.

(* ===================================================================== *)
(** ** Characters and the numeric reading of a string *)
(* ===================================================================== *)

Definition code (c : ascii) : N := N_of_ascii c.

(** WhiteSpace and LineTerminator code units below 256: TAB, LF, VT, FF,
    CR, SP and NBSP. *)
Definition is_white_space (c : ascii) : bool :=
  let n := code c in
  ((9 <=? n) && (n <=? 13) || (n =? 32) || (n =? 160))%N.

Definition hex_digit_value (c : ascii) : option Z :=
  let n := code c in
  if ((48 <=? n) && (n <=? 57))%N then Some (Z.of_N n - 48)%Z
  else if ((65 <=? n) && (n <=? 70))%N then Some (Z.of_N n - 55)%Z
  else if ((97 <=? n) && (n <=? 102))%N then Some (Z.of_N n - 87)%Z
  else None.

Definition is_hex_digit (c : ascii) : bool :=
  match hex_digit_value c with Some _ => true | None => false end.

Fixpoint drop_while {A : Type} (p : A -> bool) (l : list A) : list A :=
  match l with
  | [] => []
  | x :: l' => if p x then drop_while p l' else l
  end.

(** String.prototype.trim on a list of code units. *)
Definition trim (l : list ascii) : list ascii :=
  rev (drop_while is_white_space (rev (drop_while is_white_space l))).

(** The mathematical value of a run of hex digits, most significant
    first; [None] as soon as one character is not a hex digit. *)
Fixpoint hex_digits_value (acc : Z) (l : list ascii) : option Z :=
  match l with
  | [] => Some acc
  | c :: l' =>
      match hex_digit_value c with
      | Some d => hex_digits_value (16 * acc + d) l'
      | None => None
      end
  end.

(** The Number nearest to a non-negative integer (round to nearest, ties
    to even).  Below [2^63] the primitive conversion does it. *)
Definition number_of_Z (z : Z) : float :=
  if (z <? 0)%Z then PrimFloat.opp (SF2Prim (binary_normalize prec emax (- z) 0 false))
  else if (z <? 2 ^ 63)%Z then of_uint63 (Uint63.of_Z z)
  else SF2Prim (binary_normalize prec emax z 0 false).

(* ===================================================================== *)
(** ** What the module imports *)
(* ===================================================================== *)

(** [./converter]: for each of the four models, a function to each of the
    other three. *)
Record Converter : Type := {
  hex_toRgb : jsval -> jsval;
  hex_toHsl : jsval -> jsval;
  hex_toCmyk : jsval -> jsval;
  rgb_toHex : jsval -> jsval;
  rgb_toHsl : jsval -> jsval;
  rgb_toCmyk : jsval -> jsval;
  hsl_toHex : jsval -> jsval;
  hsl_toRgb : jsval -> jsval;
  hsl_toCmyk : jsval -> jsval;
  cmyk_toHex : jsval -> jsval;
  cmyk_toRgb : jsval -> jsval;
  cmyk_toHsl : jsval -> jsval
}.

(** The argument object of [gradstop]. *)
Record GradstopOptions : Type := {
  stops : nat;
  inputFormat : string;
  colorArray : list jsval
}.

(** - [converter], [normalize]: the sibling modules [./converter] and
      [./utils];
    - [gradstop]: the interpolation package, which answers an array of
      colour strings;
    - [StrNumericLiteral_other]: [Number(s)] for a trimmed, non-empty [s]
      that does not start with a hex marker (decimal, binary, octal and
      [Infinity] literals);
    - [Number_toString_other]: [String(x)] for a finite [x] that is not
      an integer below [2^53] in magnitude (where the shortest decimal
      that reads back as [x] need not be its exact expansion). *)
Record Externals : Type := {
  converter : Converter;
  gradstop : GradstopOptions -> list string;
  normalize : jsval -> jsval;
  StrNumericLiteral_other : string -> float;
  Number_toString_other : float -> string
}.

(* ===================================================================== *)
(** ** Strings: the three methods the module calls *)
(* ===================================================================== *)

Fixpoint drop (n : nat) (s : string) : string :=
  match n, s with
  | O, _ => s
  | S n', String _ s' => drop n' s'
  | S _, EmptyString => EmptyString
  end.

(** [s.replace(pat, rep)] for a string pattern: the first occurrence
    only.  None of the replacement texts used below contains a dollar
    sign, so no substitution pattern is involved. *)
Fixpoint replace (pat rep s : string) : string :=
  if prefix pat s then rep ++ drop (String.length pat) s
  else match s with
       | EmptyString => s
       | String c s' => String c (replace pat rep s')
       end.

(** [s.split(sep)] for a one-character separator. *)
Fixpoint split (sep : ascii) (s : string) : list string :=
  match s with
  | EmptyString => [EmptyString]
  | String c s' =>
      if Ascii.eqb c sep then EmptyString :: split sep s'
      else match split sep s' with
           | w :: ws => String c w :: ws
           | [] => [String c EmptyString]
           end
  end.

(** Decimal digits of a natural number, as [String(n)] prints an integer. *)
Fixpoint digits_fuel (fuel : nat) (n : N) (acc : string) : string :=
  match fuel with
  | O => acc
  | S fuel' =>
      let acc' := String (ascii_of_N (48 + n mod 10)) acc in
      if (n / 10 =? 0)%N then acc' else digits_fuel fuel' (n / 10)%N acc'
  end.

Definition decimal (n : N) : string :=
  digits_fuel (S (N.to_nat (N.log2 n))) n EmptyString.

Definition decimal_Z (z : Z) : string :=
  if (z <? 0)%Z then "-" ++ decimal (Z.to_N (- z)) else decimal (Z.to_N z).

(* ===================================================================== *)
(** ** Conversions between values *)
(* ===================================================================== *)

(** The integer a float stands for, when it stands for one. *)
Definition integer_of_float (x : float) : option Z :=
  match Prim2SF x with
  | S754_zero _ => Some 0%Z
  | S754_finite s m e =>
      let sign (z : Z) := if s then (- z)%Z else z in
      if (0 <=? e)%Z then Some (sign (Zpos m * 2 ^ e)%Z)
      else if (Zpos m mod 2 ^ (- e) =? 0)%Z then Some (sign (Zpos m / 2 ^ (- e))%Z)
      else None
  | _ => None
  end.

Section Conversions.

Variable X : Externals.

(** [Number(s)] on a string: white space is trimmed at both ends, the
    empty string reads as zero, and after a hex marker the rest must be
    one or more hex digits.  No other numeric literal starts with a hex
    marker, so a failure there is [NaN]. *)
Definition StringToNumber (s : string) : float :=
  match trim (list_ascii_of_string s) with
  | [] => 0%float
  | "0"%char :: ("x"%char | "X"%char) :: digits =>
      match digits, hex_digits_value 0 digits with
      | _ :: _, Some z => number_of_Z z
      | _, _ => nan
      end
  | t => StrNumericLiteral_other X (string_of_list_ascii t)
  end.

(** [String(x)] on a number. *)
Definition Number_toString (x : float) : string :=
  if is_nan x then "NaN"
  else if PrimFloat.eqb x infinity then "Infinity"
  else if PrimFloat.eqb x neg_infinity then "-Infinity"
  else match integer_of_float x with
       | Some z =>
           if (Z.abs z <? 2 ^ 53)%Z then decimal_Z z
           else Number_toString_other X x
       | None => Number_toString_other X x
       end.

(** [String(v)], which is also what a template literal applies.  An
    array prints its elements separated by commas, [undefined] and
    [null] elements as nothing. *)
Fixpoint ToString (v : jsval) : string :=
  match v with
  | JUndefined => "undefined"
  | JNull => "null"
  | JBool true => "true"
  | JBool false => "false"
  | JNum x => Number_toString x
  | JStr s => s
  | JArr l =>
      String.concat ","
        (map (fun e => match e with
                       | JUndefined | JNull => ""
                       | _ => ToString e
                       end) l)
  end.

(** [a.join(sep)]; only arrays have the method. *)
Definition join (a : jsval) (sep : string) : outcome string :=
  match a with
  | JArr l =>
      Ok (String.concat sep
            (map (fun e => match e with
                           | JUndefined | JNull => ""
                           | _ => ToString e
                           end) l))
  | _ => Throw TypeError
  end.

(** [Number(v)], the coercion arithmetic applies to an operand. *)
Definition ToNumber (v : jsval) : float :=
  match v with
  | JUndefined => nan
  | JNull => 0%float
  | JBool true => 1%float
  | JBool false => 0%float
  | JNum x => x
  | JStr s => StringToNumber s
  | JArr _ => StringToNumber (ToString v)
  end.

Definition isNaN (v : jsval) : bool := is_nan (ToNumber v).

End Conversions.

(* ===================================================================== *)
(** ** [getColorProperties] *)
(* ===================================================================== *)

(** What [inputMaxLength] answers: one bound, the whole table of bounds
    (hsl called without an index), or [undefined] (hsl called with an
    index outside the table). *)
Inductive maxLength : Type :=
| MaxNum (n : Z)
| MaxTable (l : list Z)
| MaxUndefined.

Record ColorProperties : Type := {
  inputLength : nat;
  inputMaxLength : option nat -> maxLength;
  inputType : string;
  toString : jsval -> outcome string;
  toArray : option (jsval -> outcome jsval)
}.

(** [n === bound] for a length [n]. *)
Definition length_is (n : nat) (bound : maxLength) : bool :=
  match bound with
  | MaxNum b => (Z.of_nat n =? b)%Z
  | _ => false
  end.

(** [item <= bound] for a number [item]; against a table or [undefined]
    the bound reads as [NaN] and the comparison is false. *)
Definition at_most (item : jsval) (bound : maxLength) : bool :=
  match item, bound with
  | JNum x, MaxNum b => PrimFloat.leb x (number_of_Z b)
  | _, _ => false
  end.

Section Colors.

Variable X : Externals.

Definition getColorProperties (type : string) : option ColorProperties :=
  if type =? "hex" then
    Some {| inputLength := 1;
            inputMaxLength := fun _ => MaxNum 6;
            inputType := "text";
            toString := fun color =>
              let* color :=
                (if typeof color =? "object" then
                   let* n := object_length color in
                   Ok (if (n =? 1)%nat
                       then match color with JArr l => js_index l 0 | _ => color end
                       else color)
                 else Ok color) in
              Ok ("#" ++ ToString X color);
            toArray := None |}
  else if type =? "rgb" then
    Some {| inputLength := 3;
            inputMaxLength := fun _ => MaxNum 255;
            inputType := "number";
            toString := fun color =>
              let* channels := join X (normalize X color) ", " in
              Ok ("rgb(" ++ channels ++ ")");
            toArray := Some (fun color =>
              match color with
              | JStr c =>
                  let numbs :=
                    split ","
                      (replace " " "" (replace ")" "" (replace "rgb(" "" c))) in
                  Ok (normalize X (JArr (map JStr numbs)))
              | _ => Throw TypeError
              end) |}
  else if type =? "hsl" then
    Some {| inputLength := 3;
            inputMaxLength := fun i =>
              let length := [360; 100; 100]%Z in
              match i with
              | None => MaxTable length
              | Some i =>
                  match nth_error length i with
                  | Some b => MaxNum b
                  | None => MaxUndefined
                  end
              end;
            inputType := "number";
            toString := fun color =>
              let* channels := join X (normalize X color) ", " in
              Ok ("hsl(" ++ channels ++ ")");
            toArray := None |}
  else if type =? "cmyk" then
    Some {| inputLength := 4;
            inputMaxLength := fun _ => MaxNum 100;
            inputType := "number";
            toString := fun color =>
              let* channels := join X (normalize X color) ", " in
              Ok ("cmyk(" ++ channels ++ ")");
            toArray := None |}
  else None.

(** [getColorProperties(t)] followed by a property access: on an
    unknown tag the access is on [undefined]. *)
Definition properties (type : string) : outcome ColorProperties :=
  match getColorProperties type with
  | Some p => Ok p
  | None => Throw TypeError
  end.

(* =================================================================== *)
(** ** [colorValidate] *)
(* =================================================================== *)

(** [value.filter((item, index) => keep item index)]. *)
Fixpoint filter_indexed (keep : jsval -> nat -> bool) (index : nat)
         (value : list jsval) : list jsval :=
  match value with
  | [] => []
  | item :: rest =>
      if keep item index then item :: filter_indexed keep (S index) rest
      else filter_indexed keep (S index) rest
  end.

(** The shape shared by the three numeric cases. *)
Definition validate_channels (p : ColorProperties) (indexed : bool)
           (value : jsval) : outcome jsval :=
  if typeof value =? "object" then
    let* n := object_length value in
    if (n =? inputLength p)%nat then
      match value with
      | JArr items =>
          let mapValue :=
            filter_indexed
              (fun item index =>
                 (typeof item =? "number") &&
                 at_most item
                   (inputMaxLength p (if indexed then Some index else None)))
              0 items in
          Ok (JBool (List.length mapValue =? inputLength p)%nat)
      | _ => Throw TypeError
      end
    else Ok (JBool false)
  else Ok (JBool false).

Definition colorValidate (from : string) (value : jsval) : outcome jsval :=
  if from =? "hex" then
    let* hex := properties "hex" in
    let* value :=
      (if typeof value =? "object" then
         let* n := object_length value in
         Ok (if (n =? inputLength hex)%nat
             then match value with JArr l => js_index l 0 | _ => value end
             else value)
       else Ok value) in
    Ok (JBool
          (match value with
           | JStr s =>
               length_is (String.length s) (inputMaxLength hex None) &&
               negb (isNaN X (JStr ("0x" ++ s)))
           | _ => false
           end))
  else if from =? "rgb" then
    let* rgb := properties "rgb" in validate_channels rgb false value
  else if from =? "hsl" then
    let* hsl := properties "hsl" in validate_channels hsl true value
  else if from =? "cmyk" then
    let* cmyk := properties "cmyk" in validate_channels cmyk false value
  else Ok JUndefined.

End Colors.

(* ===================================================================== *)
(** ** [colorConvert] and the YIQ heuristic *)
(* ===================================================================== *)

Record ColorSet : Type := {
  hex : jsval;
  rgb : jsval;
  hsl : jsval;
  cmyk : jsval
}.

Record ContrastResult : Type := {
  yiq : float;
  result : string
}.

(** The values an array pattern [[r, g, b]] draws from: the elements of
    an array or the characters of a string; nothing else is iterable. *)
Definition iterate (v : jsval) : outcome (list jsval) :=
  match v with
  | JArr l => Ok l
  | JStr s => Ok (map (fun c => JStr (String c EmptyString)) (list_ascii_of_string s))
  | _ => Throw TypeError
  end.

(** [x.p] where [x] may be [undefined]. *)
Definition defined {A : Type} (x : option A) : outcome A :=
  match x with
  | Some a => Ok a
  | None => Throw TypeError
  end.

(** [a[i]] on an array of strings. *)
Definition string_index (a : list string) (i : nat) : jsval :=
  match nth_error a i with
  | Some s => JStr s
  | None => JUndefined
  end.

Section Pipeline.

Variable X : Externals.

Definition colorConvert (type : string) (value : jsval) : option ColorSet :=
  let c := converter X in
  if type =? "hex" then
    Some {| hex := value;
            rgb := hex_toRgb c value;
            hsl := hex_toHsl c value;
            cmyk := hex_toCmyk c value |}
  else if type =? "rgb" then
    Some {| hex := rgb_toHex c value;
            rgb := value;
            hsl := rgb_toHsl c value;
            cmyk := rgb_toCmyk c value |}
  else if type =? "hsl" then
    Some {| hex := hsl_toHex c value;
            rgb := hsl_toRgb c value;
            hsl := value;
            cmyk := hsl_toCmyk c value |}
  else if type =? "cmyk" then
    Some {| hex := cmyk_toHex c value;
            rgb := cmyk_toRgb c value;
            hsl := cmyk_toHsl c value;
            cmyk := value |}
  else None.

Definition yiqContrastColor (yiq : float) : string :=
  if PrimFloat.leb 128 yiq then "black" else "white".

Definition yiqContrastRatio (rgb : jsval) : outcome ContrastResult :=
  let* channels := iterate rgb in
  let r := ToNumber X (js_index channels 0) in
  let g := ToNumber X (js_index channels 1) in
  let b := ToNumber X (js_index channels 2) in
  let yiq := ((r * 299 + g * 587 + b * 114) / 1000)%float in
  Ok {| yiq := yiq;
        result := if PrimFloat.leb 128 yiq then "black" else "white" |}.

(* =================================================================== *)
(** ** [generateGrandients] *)
(* =================================================================== *)

Definition generateGrandients (hex : jsval) : outcome (list string) :=
  let* isValidColor := colorValidate X "hex" hex in
  if negb (ToBoolean isValidColor) then Ok []
  else
    let rgbColor := hex_toRgb (converter X) hex in
    let hexResult :=
      gradstop X {| stops := 8;
                    inputFormat := "hex";
                    colorArray := [JStr "#212121";
                                   JStr ("#" ++ ToString X hex);
                                   JStr "#FFFFFF"] |} in
    let* channels := join X rgbColor "," in
    Ok (gradstop X {| stops := 8;
                      inputFormat := "rgb";
                      colorArray := [string_index hexResult 1;
                                     JStr ("rgb(" ++ channels ++ ")");
                                     string_index hexResult 6] |}).

End Pipeline.

(* ===================================================================== *)
(** ** The store: arrays that are mutated in place, and the page *)
(* ===================================================================== *)

(** [Array.prototype.reverse] reverses the array it is called on and
    answers that same array.  The gradient ramp is the one array the
    module mutates after sharing it, so it lives in a store and the
    [Theme] holds a reference to it.  The page is what [calculateColor]
    writes: the style text of the body, kept as it was written, and the
    class list of the body. *)
Definition ref : Type := nat.

Record world : Type := {
  arrays : list (list string);
  cssText : string;
  classList : list string
}.

Definition M (A : Type) : Type := world -> outcome (A * world).

Definition ret {A : Type} (a : A) : M A := fun w => Ok (a, w).

Definition bindM {A B : Type} (m : M A) (k : A -> M B) : M B :=
  fun w =>
    match m w with
    | Ok (a, w') => k a w'
    | Throw e => Throw e
    end.

Definition lift {A : Type} (r : outcome A) : M A :=
  fun w =>
    match r with
    | Ok a => Ok (a, w)
    | Throw e => Throw e
    end.

Notation "'let!' x ':=' m 'in' k" := (bindM m (fun x => k))
  (at level 10, x name, m at level 100, k at level 200) : js_scope.

(** A fresh array holding [content]. *)
Definition new_array (content : list string) : M ref :=
  fun w =>
    Ok (List.length (arrays w),
        {| arrays := (arrays w ++ [content])%list;
           cssText := cssText w;
           classList := classList w |}).

Definition contents (w : world) (a : ref) : list string :=
  nth a (arrays w) [].

(** [a[i]]: the element, or [undefined]. *)
Definition array_get (a : ref) (i : nat) : M (option string) :=
  fun w => Ok (nth_error (contents w a) i, w).

(** The elements in order, as [Object.entries] and [join] read them. *)
Definition array_contents (a : ref) : M (list string) :=
  fun w => Ok (contents w a, w).

Fixpoint update {A : Type} (l : list A) (i : nat) (x : A) : list A :=
  match l, i with
  | [], _ => []
  | _ :: l', O => x :: l'
  | y :: l', S i' => y :: update l' i' x
  end.

(** [a.reverse()]: in place; the answer is [a] itself. *)
Definition array_reverse (a : ref) : M ref :=
  fun w =>
    Ok (a,
        {| arrays := update (arrays w) a (rev (contents w a));
           cssText := cssText w;
           classList := classList w |}).

Definition set_cssText (text : string) : M unit :=
  fun w =>
    Ok (tt, {| arrays := arrays w; cssText := text; classList := classList w |}).

Definition get_cssText : M string := fun w => Ok (cssText w, w).

Definition mem (name : string) (l : list string) : bool :=
  existsb (String.eqb name) l.

Definition classList_add (name : string) : M unit :=
  fun w =>
    Ok (tt,
        {| arrays := arrays w;
           cssText := cssText w;
           classList := if mem name (classList w) then classList w
                        else (classList w ++ [name])%list |}).

Definition classList_remove (name : string) : M unit :=
  fun w =>
    Ok (tt,
        {| arrays := arrays w;
           cssText := cssText w;
           classList := filter (fun c => negb (String.eqb name c)) (classList w) |}).

(* ===================================================================== *)
(** ** [generateCssColor] and [calculateColor] *)
(* ===================================================================== *)

Record ThemeVariable : Type := {
  primary : jsval;
  secondary : jsval;
  text : jsval;
  contrast' : jsval
}.

Record Theme : Type := {
  colors : ColorSet;
  contrast : ContrastResult;
  gradients : ref;
  cssVariable : list string;
  variable : ThemeVariable
}.

(** What [calculateColor] answers: the theme without its declarations. *)
Record CalculatedColor : Type := {
  calc_colors : ColorSet;
  calc_contrast : ContrastResult;
  calc_gradients : ref;
  calc_variable : ThemeVariable
}.

(** A template literal's rendering of a string that may be [undefined]. *)
Definition template (v : option string) : string :=
  match v with
  | Some s => s
  | None => "undefined"
  end.

Definition as_value (v : option string) : jsval :=
  match v with
  | Some s => JStr s
  | None => JUndefined
  end.

(** [v !== null]. *)
Definition not_null (v : jsval) : bool :=
  match v with
  | JNull => false
  | _ => true
  end.

(** The [--gradient-N] declarations of the loop over
    [Object.entries(...)]: [N] is [(index + 1) * 100]. *)
Fixpoint gradient_declarations (index : nat) (l : list string) : list string :=
  match l with
  | [] => []
  | gradient :: rest =>
      ("--gradient-" ++ decimal (N.of_nat ((index + 1) * 100)) ++ ": "
         ++ gradient ++ ";")
        :: gradient_declarations (S index) rest
  end.

Section Theming.

Variable X : Externals.

Definition generateCssColor (type : string) (value : jsval) : M Theme :=
  let! colors := lift (defined (colorConvert X type value)) in
  let! contrast := lift (yiqContrastRatio X (rgb colors)) in
  let! ramp := lift (generateGrandients X (hex colors)) in
  let! gradients := new_array ramp in
  let! rgbP := lift (properties X "rgb") in
  let black := result contrast =? "black" in
  let! textColor :=
    (if black then array_get gradients 7
     else let! s := lift (toString rgbP (rgb colors)) in ret (Some s)) in
  let! secondaryColor :=
    (if black then array_get gradients 1 else array_get gradients 7) in
  let! darkColor :=
    (if black then array_get gradients 7 else array_get gradients 1) in
  let! darkTransparent :=
    lift (let* d := defined darkColor in
          Ok (replace ")" ", 0.98)" (replace "rgb" "rgba" d))) in
  let! primaryColor := lift (toString rgbP (rgb colors)) in
  let cssVariable :=
    [("primary-color", Some primaryColor);
     ("secondary-color", secondaryColor);
     ("text-color", textColor);
     ("dark-color", darkColor);
     ("dark-transparent-color", Some darkTransparent);
     ("contrast-color", Some (result contrast))] in
  let! toArray := lift (defined (toArray rgbP)) in
  let primary := normalize X (rgb colors) in
  let! secondary := lift (toArray (as_value secondaryColor)) in
  let! text := lift (toArray (as_value textColor)) in
  let variable :=
    {| primary := primary;
       secondary := secondary;
       text := text;
       contrast' := if black
                    then JArr [JNum 0; JNum 0; JNum 0]
                    else JArr [JNum 255; JNum 255; JNum 255] |} in
  let cssVariable :=
    map (fun '(name, value) => "--" ++ name ++ ": " ++ template value ++ ";")
        (filter (fun '(name, value) => not_null (JStr name)) cssVariable) in
  let! reversed := array_reverse gradients in
  let! entries := array_contents reversed in
  let cssVariable := (cssVariable ++ gradient_declarations 0 entries)%list in
  ret {| colors := colors;
         contrast := contrast;
         gradients := gradients;
         cssVariable := cssVariable;
         variable := variable |}.

Definition calculateColor (type : string) (value : jsval) (animated : bool)
  : M CalculatedColor :=
  let! theme := generateCssColor type value in
  let! _ := set_cssText (String.concat "" (cssVariable theme)) in
  let! current := get_cssText in
  let! _ := set_cssText
              (current ++
                 if animated
                 then "transition: background-color 0.5s cubic-bezier(0.4, 0, 0.2, 1);"
                 else "") in
  let! _ := (if result (contrast theme) =? "black"
             then classList_add "dark"
             else classList_remove "dark") in
  let! reversed := array_reverse (gradients theme) in
  ret {| calc_colors := colors theme;
         calc_contrast := contrast theme;
         calc_gradients := reversed;
         calc_variable := variable theme |}.

End Theming.

(* ===================================================================== *)
(** ** [generateRandomColor] *)
(* ===================================================================== *)

(** [getRange] of [./utils] draws from the random source of the page.  A
    run is read against the sequence of its draws: [getRange n min max]
    is what the call answers when [n] draws were made before it. *)
Section Random.

Variable getRange : nat -> float -> float -> float.

(** [Array(3).fill(0).map(() => getRange(1, 255))]: three draws, in the
    order of the indices; the count of draws is handed on. *)
Definition generateRandomColor (drawn : nat) : jsval * nat :=
  (JArr (map (fun index => JNum (getRange (drawn + index) 1 255))
             [0; 1; 2]%nat),
   (drawn + 3)%nat).

End Random.

(* ===================================================================== *)
(** ** Sample collaborators *)
(* ===================================================================== *)

(** The theorems below hold for every [Externals].  To run the model on
    concrete inputs one instance is needed; this one follows the textbook
    formulas, with rgb as the hub of the converter, and a quadratic
    Bezier curve through the three anchors for the interpolation. *)
Module Sample.

Definition num (z : Z) : jsval := JNum (number_of_Z z).

Definition channel (v : jsval) : float :=
  match v with
  | JNum x => x
  | _ => nan
  end.

Definition pair_value (c1 c2 : ascii) : jsval :=
  match hex_digits_value 0 [c1; c2] with
  | Some z => num z
  | None => JNum nan
  end.

Definition hexToRgb (v : jsval) : jsval :=
  match v with
  | JStr s =>
      match list_ascii_of_string s with
      | [a; b; c; d; e; f] => JArr [pair_value a b; pair_value c d; pair_value e f]
      | _ => JArr [JNum nan; JNum nan; JNum nan]
      end
  | _ => JArr [JNum nan; JNum nan; JNum nan]
  end.

Definition hex_char (d : Z) : ascii :=
  ascii_of_N (Z.to_N (if (d <? 10)%Z then 48 + d else 55 + d)).

Definition two_digits (v : jsval) : string :=
  match integer_of_float (channel v) with
  | Some z =>
      let z := Z.max 0 (Z.min 255 z) in
      String (hex_char (z / 16)) (String (hex_char (z mod 16)) EmptyString)
  | None => "00"
  end.

Definition rgbToHex (v : jsval) : jsval :=
  match v with
  | JArr [r; g; b] => JStr (two_digits r ++ two_digits g ++ two_digits b)
  | _ => JStr "000000"
  end.

Definition fmax (x y : float) : float := if PrimFloat.ltb x y then y else x.
Definition fmin (x y : float) : float := if PrimFloat.ltb y x then y else x.

Definition rgbToHsl (v : jsval) : jsval :=
  match v with
  | JArr [r; g; b] =>
      let r := (channel r / 255)%float in
      let g := (channel g / 255)%float in
      let b := (channel b / 255)%float in
      let hi := fmax r (fmax g b) in
      let lo := fmin r (fmin g b) in
      let l := ((hi + lo) / 2)%float in
      if PrimFloat.eqb hi lo then JArr [JNum 0; JNum 0; JNum (l * 100)]
      else
        let d := (hi - lo)%float in
        let s := if PrimFloat.ltb 0.5 l then (d / (2 - hi - lo))%float
                 else (d / (hi + lo))%float in
        let h := if PrimFloat.eqb hi r
                 then ((g - b) / d + (if PrimFloat.ltb g b then 6 else 0))%float
                 else if PrimFloat.eqb hi g then ((b - r) / d + 2)%float
                 else ((r - g) / d + 4)%float in
        JArr [JNum (h * 60); JNum (s * 100); JNum (l * 100)]
  | _ => JArr [JNum nan; JNum nan; JNum nan]
  end.

Definition hue (p q t : float) : float :=
  let t := if PrimFloat.ltb t 0 then (t + 1)%float
           else if PrimFloat.ltb 1 t then (t - 1)%float else t in
  if PrimFloat.ltb (t * 6) 1 then (p + (q - p) * 6 * t)%float
  else if PrimFloat.ltb (t * 2) 1 then q
  else if PrimFloat.ltb (t * 3) 2 then (p + (q - p) * (4 - 6 * t))%float
  else p.

Definition hslToRgb (v : jsval) : jsval :=
  match v with
  | JArr [h; s; l] =>
      let h := (channel h / 360)%float in
      let s := (channel s / 100)%float in
      let l := (channel l / 100)%float in
      if PrimFloat.eqb s 0
      then JArr [JNum (l * 255); JNum (l * 255); JNum (l * 255)]
      else
        let q := if PrimFloat.ltb l 0.5 then (l * (1 + s))%float
                 else (l + s - l * s)%float in
        let p := (2 * l - q)%float in
        JArr [JNum (hue p q (h + 1 / 3) * 255);
              JNum (hue p q h * 255);
              JNum (hue p q (h - 1 / 3) * 255)]
  | _ => JArr [JNum nan; JNum nan; JNum nan]
  end.

Definition rgbToCmyk (v : jsval) : jsval :=
  match v with
  | JArr [r; g; b] =>
      let r := (channel r / 255)%float in
      let g := (channel g / 255)%float in
      let b := (channel b / 255)%float in
      let k := (1 - fmax r (fmax g b))%float in
      if PrimFloat.eqb k 1 then JArr [JNum 0; JNum 0; JNum 0; JNum 100]
      else JArr [JNum ((1 - r - k) / (1 - k) * 100);
                 JNum ((1 - g - k) / (1 - k) * 100);
                 JNum ((1 - b - k) / (1 - k) * 100);
                 JNum (k * 100)]
  | _ => JArr [JNum nan; JNum nan; JNum nan; JNum nan]
  end.

Definition cmykToRgb (v : jsval) : jsval :=
  match v with
  | JArr [c; m; y; k] =>
      let k := (1 - channel k / 100)%float in
      JArr [JNum (255 * (1 - channel c / 100) * k);
            JNum (255 * (1 - channel m / 100) * k);
            JNum (255 * (1 - channel y / 100) * k)]
  | _ => JArr [JNum nan; JNum nan; JNum nan]
  end.

Definition converter : Converter :=
  {| hex_toRgb := hexToRgb;
     hex_toHsl := fun v => rgbToHsl (hexToRgb v);
     hex_toCmyk := fun v => rgbToCmyk (hexToRgb v);
     rgb_toHex := rgbToHex;
     rgb_toHsl := rgbToHsl;
     rgb_toCmyk := rgbToCmyk;
     hsl_toHex := fun v => rgbToHex (hslToRgb v);
     hsl_toRgb := hslToRgb;
     hsl_toCmyk := fun v => rgbToCmyk (hslToRgb v);
     cmyk_toHex := fun v => rgbToHex (cmykToRgb v);
     cmyk_toRgb := cmykToRgb;
     cmyk_toHsl := fun v => rgbToHsl (cmykToRgb v) |}.

(** Decimal integers, with an optional sign. *)
Fixpoint digits_value (acc : Z) (l : list ascii) : option Z :=
  match l with
  | [] => Some acc
  | c :: l' =>
      let n := code c in
      if ((48 <=? n) && (n <=? 57))%N
      then digits_value (10 * acc + (Z.of_N n - 48)) l'
      else None
  end.

Definition integer_value (l : list ascii) : option Z :=
  match l with
  | [] => None
  | "-"%char :: (_ :: _) as l' => option_map Z.opp (digits_value 0 l')
  | _ => digits_value 0 l
  end.

Definition StrNumericLiteral_other (s : string) : float :=
  match integer_value (list_ascii_of_string s) with
  | Some z => number_of_Z z
  | None => nan
  end.

(** No run below prints a number that is not a small integer. *)
Definition Number_toString_other (x : float) : string := "?".

(** The greatest integer below a finite float. *)
Definition floor (x : float) : option Z :=
  match Prim2SF x with
  | S754_zero _ => Some 0%Z
  | S754_finite s m e =>
      let z := if s then Zneg m else Zpos m in
      Some (if (0 <=? e)%Z then z * 2 ^ e else z / 2 ^ (- e))%Z
  | _ => None
  end.

Definition round (x : float) : float :=
  match floor (x + 0.5) with
  | Some z => number_of_Z z
  | None => x
  end.

(** Every entry read as a number and rounded to an integer. *)
Definition normalize (v : jsval) : jsval :=
  match v with
  | JArr l =>
      JArr (map (fun e =>
                   match e with
                   | JNum x => JNum (round x)
                   | JStr s =>
                       JNum (StrNumericLiteral_other
                               (string_of_list_ascii (trim (list_ascii_of_string s))))
                   | _ => JNum nan
                   end) l)
  | _ => JArr []
  end.

Definition parse_color (format : string) (v : jsval) : list Z :=
  match v with
  | JStr s =>
      if format =? "hex" then
        match list_ascii_of_string (drop 1 s) with
        | [a; b; c; d; e; f] =>
            map (fun p => match hex_digits_value 0 p with
                          | Some z => z
                          | None => 0%Z
                          end) [[a; b]; [c; d]; [e; f]]
        | _ => [0; 0; 0]%Z
        end
      else
        map (fun part => match integer_value (trim (list_ascii_of_string part)) with
                         | Some z => z
                         | None => 0%Z
                         end)
            (split "," (replace ")" "" (replace "rgb(" "" s)))
  | _ => [0; 0; 0]%Z
  end.

Definition bezier (n i : Z) (p0 p1 p2 : Z) : Z :=
  (((n - i) * (n - i) * p0 + 2 * (n - i) * i * p1 + i * i * p2) / (n * n))%Z.

Definition gradstop (o : GradstopOptions) : list string :=
  let anchors := map (parse_color (inputFormat o)) (colorArray o) in
  let anchor (k : nat) (c : nat) := nth c (nth k anchors []) 0%Z in
  let n := (Z.of_nat (stops o) - 1)%Z in
  map (fun i =>
         let at_channel (c : nat) :=
           decimal_Z (bezier n (Z.of_nat i) (anchor 0 c) (anchor 1 c) (anchor 2 c))%nat in
         "rgb(" ++ at_channel 0%nat ++ ", " ++ at_channel 1%nat ++ ", "
           ++ at_channel 2%nat ++ ")")
      (seq 0 (stops o)).

Definition externals : Externals :=
  Build_Externals converter gradstop normalize
                  StrNumericLiteral_other Number_toString_other.

End Sample.

(* ===================================================================== *)
(** ** Relative luminance and the WCAG ratio *)
(* ===================================================================== *)

(** [getLuminance] raises a channel to the power 2.4, which primitive
    floats do not offer, and what is asked of [calculateContrast] is a
    matter of order and bounds.  This part is therefore read over the real
    numbers: a channel is a real, the decimal constants are the rationals
    they spell, [Math.pow] is [Rpower] (its base is positive wherever the
    code calls it), and the one conversion used, [converter.hex.toRgb], is
    a parameter from strings to triples. *)
Module Wcag.

Local Open Scope R_scope.

Definition triple : Type := (R * R * R)%type.

(** An argument of [calculateContrast]: [Number[]] or [String]. *)
Inductive color : Type :=
| Rgb (c : triple)
| Hex (s : string).





Section Contrast.

Variable hex_toRgb : string -> triple.




End Contrast.



(** A sample [hex.toRgb]: three pairs of hex digits. *)
Definition pair_value (c1 c2 : ascii) : R :=
  match hex_digits_value 0 [c1; c2] with
  | Some z => IZR z
  | None => 0
  end.


End Wcag.

(* ===================================================================== *)
(** ** Vocabulary of the statements *)
(* ===================================================================== *)

(** The test of the three [filter] callbacks: a number at most the bound. *)
Definition within (bound : float) (item : jsval) : Prop :=
  exists x : float, item = JNum x /\ PrimFloat.leb x bound = true.

Inductive Model : Type := MHex | MRgb | MHsl | MCmyk.

Definition tag (m : Model) : string :=
  match m with
  | MHex => "hex"
  | MRgb => "rgb"
  | MHsl => "hsl"
  | MCmyk => "cmyk"
  end.

Definition field (m : Model) (c : ColorSet) : jsval :=
  match m with
  | MHex => hex c
  | MRgb => rgb c
  | MHsl => hsl c
  | MCmyk => cmyk c
  end.

(** The converter's function from one model to another; a value already
    is its own representation. *)
Definition conversion (c : Converter) (from to : Model) : jsval -> jsval :=
  match from, to with
  | MHex, MHex | MRgb, MRgb | MHsl, MHsl | MCmyk, MCmyk => fun v => v
  | MHex, MRgb => hex_toRgb c
  | MHex, MHsl => hex_toHsl c
  | MHex, MCmyk => hex_toCmyk c
  | MRgb, MHex => rgb_toHex c
  | MRgb, MHsl => rgb_toHsl c
  | MRgb, MCmyk => rgb_toCmyk c
  | MHsl, MHex => hsl_toHex c
  | MHsl, MRgb => hsl_toRgb c
  | MHsl, MCmyk => hsl_toCmyk c
  | MCmyk, MHex => cmyk_toHex c
  | MCmyk, MRgb => cmyk_toRgb c
  | MCmyk, MHsl => cmyk_toHsl c
  end.


(** The contract of the interpolation package: as many colours as stops
    were asked for. *)
Definition gradstop_contract (X : Externals) : Prop :=
  forall o : GradstopOptions, List.length (gradstop X o) = stops o.

Definition is_array (v : jsval) : Prop := exists l, v = JArr l.

Definition empty_world : world :=
  {| arrays := []; cssText := ""; classList := [] |}.

(** What an array pattern can draw from. *)
Definition iterable (v : jsval) : Prop :=
  match v with
  | JArr _ | JStr _ => True
  | _ => False
  end.

Fixpoint occurs (c : ascii) (s : string) : bool :=
  match s with
  | EmptyString => false
  | String x s' => Ascii.eqb c x || occurs c s'
  end.

(** A piece of text with no comma, no space and no closing parenthesis:
    what stands for one channel in a colour string. *)
Definition plain (s : string) : Prop :=
  occurs "," s = false /\ occurs " " s = false /\ occurs ")" s = false.

(** The transition that [calculateColor] appends when asked to animate. *)
Definition transition : string :=
  "transition: background-color 0.5s cubic-bezier(0.4, 0, 0.2, 1);".

Definition hex_digit (c : ascii) : Prop := is_hex_digit c = true.

Definition white_space (c : ascii) : Prop := is_white_space c = true.

Definition trim_end (l : list ascii) : list ascii :=
  rev (drop_while is_white_space (rev l)).

(** The pieces [toArray] hands to [normalize]. *)
Definition pieces (c : string) : list string :=
  split "," (replace " " "" (replace ")" "" (replace "rgb(" "" c))).

(** One custom property of the style text. *)
Definition declaration (name value : string) : string :=
  "--" ++ name ++ ": " ++ value ++ ";".

(* ===================================================================== *)
(** * Properties *)
(* ===================================================================== *)

(** ** The YIQ heuristic *)

(** C2.  On an rgb triple [[r, g, b]] [yiqContrastRatio] answers
    [yiq = (r*299 + g*587 + b*114) / 1000], with result ["black"] exactly
    when [yiq >= 128] and ["white"] otherwise; white [[255,255,255]] has
    [yiq = 255] and result ["black"], black [[0,0,0]] has [yiq = 0] and
    result ["white"]. *)
Theorem yiqContrastRatio_formula :
  forall (X : Externals) (r g b : float),
    (exists c : ContrastResult,
        yiqContrastRatio X (JArr [JNum r; JNum g; JNum b]) = Ok c /\
        yiq c = ((r * 299 + g * 587 + b * 114) / 1000)%float /\
        (result c = "black" <-> PrimFloat.leb 128 (yiq c) = true) /\
        (result c = "white" <-> PrimFloat.leb 128 (yiq c) = false)) /\
    yiqContrastRatio X (JArr [JNum 255; JNum 255; JNum 255])
      = Ok {| yiq := 255; result := "black" |} /\
    yiqContrastRatio X (JArr [JNum 0; JNum 0; JNum 0])
      = Ok {| yiq := 0; result := "white" |}.
Proof.
  intros X r g b. split; [| split; reflexivity].
  eexists. split; [reflexivity |]. cbn [yiq result].
  split; [reflexivity |].
  destruct (PrimFloat.leb 128 _); split; split; intros H;
    try reflexivity; discriminate H.
Qed.

(** The stand-alone [yiqContrastColor] takes the same decision. *)
Lemma yiqContrastColor_agrees :
  forall (X : Externals) (v : jsval) (c : ContrastResult),
    yiqContrastRatio X v = Ok c -> result c = yiqContrastColor (yiq c).
Proof.
  intros X v c. unfold yiqContrastRatio.
  destruct (iterate v); cbn [bind]; [| discriminate].
  intros H. injection H as <-. reflexivity.
Qed.

(** ** Validation of the numeric models *)

Lemma number_test (item : jsval) (b : Z) :
  (typeof item =? "number") && at_most item (MaxNum b) = true
  <-> within (number_of_Z b) item.
Proof.
  unfold within. destruct item; cbn;
    try (split; [discriminate | intros (x & H & _); discriminate H]).
  split.
  - intros H. eauto.
  - intros (y & H & Hy). injection H as ->. exact Hy.
Qed.

Lemma number_test_false (item : jsval) (b : Z) :
  (typeof item =? "number") && at_most item (MaxNum b) = false
  -> ~ within (number_of_Z b) item.
Proof.
  intros H Hw. apply number_test in Hw. congruence.
Qed.

Ltac channel_cases :=
  repeat match goal with
    | |- context [(typeof ?i =? "number") && at_most ?i (MaxNum ?b)] =>
        let E := fresh "E" in
        destruct ((typeof i =? "number") && at_most i (MaxNum b)) eqn:E;
        [apply number_test in E | apply number_test_false in E]
    end.

Ltac not_an_array :=
  split; [discriminate | intros H; repeat destruct H as [? H]; discriminate].

Lemma validate_three (X : Externals) (tag : string) (b0 b1 b2 : Z) (value : jsval) :
  (forall a b c,
      colorValidate X tag (JArr [a; b; c]) =
        Ok (JBool (Nat.eqb
                     (List.length
                        (filter_indexed
                           (fun item index =>
                              (typeof item =? "number") &&
                              at_most item (MaxNum (nth index [b0; b1; b2] 0%Z)))
                           0 [a; b; c])) 3))) ->
  (forall v, (forall a b c, v <> JArr [a; b; c]) ->
             colorValidate X tag v <> Ok (JBool true)) ->
  colorValidate X tag value = Ok (JBool true) <->
  exists a b c,
    value = JArr [a; b; c] /\
    within (number_of_Z b0) a /\ within (number_of_Z b1) b /\
    within (number_of_Z b2) c.
Proof.
  intros Hthree Hother. split.
  - intros H.
    assert (exists a b c, value = JArr [a; b; c]) as (a & b & c & ->).
    { destruct value as [| | | | | [| a [| b [| c [| d l]]]]];
        try (exfalso; revert H; apply Hother; intros; discriminate).
      eauto. }
    exists a, b, c. split; [reflexivity |].
    rewrite Hthree in H. cbn in H. revert H.
    channel_cases; cbn; intros H; try discriminate H; auto.
  - intros (a & b & c & -> & Ha & Hb & Hc).
    rewrite Hthree. cbn.
    apply number_test in Ha, Hb, Hc. rewrite Ha, Hb, Hc. reflexivity.
Qed.

(** C4.  The numeric models are checked for arity, numeric type and an
    upper bound per channel, and for nothing else: rgb is valid exactly
    for three numbers at most 255, hsl for three numbers at most 360, 100
    and 100 by position, cmyk for four numbers at most 100.  So rgb
    [[0,0,0]] and [[-1,0,0]] pass and [[256,0,0]] does not, hsl
    [[360,100,100]] passes and [[361,0,0]] does not, and no cmyk sequence
    of five entries passes. *)
Theorem colorValidate_numeric_models :
  forall X : Externals,
    (forall value,
        colorValidate X "rgb" value = Ok (JBool true) <->
        exists a b c,
          value = JArr [a; b; c] /\
          within 255 a /\ within 255 b /\ within 255 c) /\
    (forall value,
        colorValidate X "hsl" value = Ok (JBool true) <->
        exists a b c,
          value = JArr [a; b; c] /\
          within 360 a /\ within 100 b /\ within 100 c) /\
    (forall value,
        colorValidate X "cmyk" value = Ok (JBool true) <->
        exists a b c d,
          value = JArr [a; b; c; d] /\
          within 100 a /\ within 100 b /\ within 100 c /\ within 100 d) /\
    colorValidate X "rgb" (JArr [JNum 0; JNum 0; JNum 0]) = Ok (JBool true) /\
    colorValidate X "rgb" (JArr [JNum (-1); JNum 0; JNum 0]) = Ok (JBool true) /\
    colorValidate X "rgb" (JArr [JNum 256; JNum 0; JNum 0]) = Ok (JBool false) /\
    colorValidate X "hsl" (JArr [JNum 360; JNum 100; JNum 100]) = Ok (JBool true) /\
    colorValidate X "hsl" (JArr [JNum 361; JNum 0; JNum 0]) = Ok (JBool false) /\
    (forall a b c d e,
        colorValidate X "cmyk" (JArr [a; b; c; d; e]) = Ok (JBool false)).
Proof.
  intros X. repeat split; try reflexivity.
  - apply (validate_three X "rgb" 255 255 255 value); [reflexivity |].
    intros v Hv.
    destruct v as [| | | | | [| a [| b [| c [| d l]]]]]; try discriminate.
    exfalso. apply (Hv a b c). reflexivity.
  - apply (validate_three X "rgb" 255 255 255 value); [reflexivity |].
    intros v Hv.
    destruct v as [| | | | | [| a [| b [| c [| d l]]]]]; try discriminate.
    exfalso. apply (Hv a b c). reflexivity.
  - apply (validate_three X "hsl" 360 100 100 value); [reflexivity |].
    intros v Hv.
    destruct v as [| | | | | [| a [| b [| c [| d l]]]]]; try discriminate.
    exfalso. apply (Hv a b c). reflexivity.
  - apply (validate_three X "hsl" 360 100 100 value); [reflexivity |].
    intros v Hv.
    destruct v as [| | | | | [| a [| b [| c [| d l]]]]]; try discriminate.
    exfalso. apply (Hv a b c). reflexivity.
  - intros H.
    destruct value as [| | | | | [| a [| b [| c [| d [| e l]]]]]];
      try discriminate H.
    exists a, b, c, d. split; [reflexivity |].
    cbn in H. revert H.
    channel_cases; cbn; intros H; try discriminate H; auto.
  - intros (a & b & c & d & -> & Ha & Hb & Hc & Hd).
    apply (proj2 (number_test _ 100)) in Ha, Hb, Hc, Hd.
    cbn. rewrite Ha, Hb, Hc, Hd. reflexivity.
Qed.

(** ** The converter facade *)

(** C8.  For each of the four tags and every value, [colorConvert] puts
    the value itself under the field of its own model and fills the other
    three fields with the converter's three functions from that model. *)
Theorem colorConvert_fields :
  forall (X : Externals) (V : jsval),
    colorConvert X "hex" V =
      Some {| hex := V;
              rgb := hex_toRgb (converter X) V;
              hsl := hex_toHsl (converter X) V;
              cmyk := hex_toCmyk (converter X) V |} /\
    colorConvert X "rgb" V =
      Some {| hex := rgb_toHex (converter X) V;
              rgb := V;
              hsl := rgb_toHsl (converter X) V;
              cmyk := rgb_toCmyk (converter X) V |} /\
    colorConvert X "hsl" V =
      Some {| hex := hsl_toHex (converter X) V;
              rgb := hsl_toRgb (converter X) V;
              hsl := V;
              cmyk := hsl_toCmyk (converter X) V |} /\
    colorConvert X "cmyk" V =
      Some {| hex := cmyk_toHex (converter X) V;
              rgb := cmyk_toRgb (converter X) V;
              hsl := cmyk_toHsl (converter X) V;
              cmyk := V |}.
Proof.
  intros X V. repeat split.
Qed.

(** The same, said once for all models. *)
Lemma colorConvert_by_model (X : Externals) (m : Model) (v : jsval) :
  colorConvert X (tag m) v =
    Some {| hex := conversion (converter X) m MHex v;
            rgb := conversion (converter X) m MRgb v;
            hsl := conversion (converter X) m MHsl v;
            cmyk := conversion (converter X) m MCmyk v |}.
Proof.
  destruct m; reflexivity.
Qed.

Lemma field_by_model (X : Externals) (m m' : Model) (v : jsval) (cs : ColorSet) :
  colorConvert X (tag m) v = Some cs ->
  field m' cs = conversion (converter X) m m' v.
Proof.
  rewrite colorConvert_by_model. intros H. injection H as <-.
  destruct m'; reflexivity.
Qed.

(** A tag outside the four models has no ColorSet, and its validation
    answers [undefined]. *)
Theorem unrecognized_tag :
  forall (X : Externals) (t : string) (v : jsval),
    t <> "hex" -> t <> "rgb" -> t <> "hsl" -> t <> "cmyk" ->
    colorConvert X t v = None /\ colorValidate X t v = Ok JUndefined.
Proof.
  intros X t v Hhex Hrgb Hhsl Hcmyk. unfold colorConvert, colorValidate.
  destruct (String.eqb_spec t "hex"); [contradiction |].
  destruct (String.eqb_spec t "rgb"); [contradiction |].
  destruct (String.eqb_spec t "hsl"); [contradiction |].
  destruct (String.eqb_spec t "cmyk"); [contradiction |].
  split; reflexivity.
Qed.

Lemma unrecognized_tag_lab :
  colorConvert Sample.externals "lab" (JStr "336699") = None /\
  colorValidate Sample.externals "lab" (JStr "336699") = Ok JUndefined.
Proof.
  apply (unrecognized_tag Sample.externals "lab" (JStr "336699"));
    discriminate.
Defined.




(** The spec's example, on the sample converter: from hex 336699 to its
    rgb field and back. *)
Example round_trip_336699 :
  exists cs cs',
    colorConvert Sample.externals "hex" (JStr "336699") = Some cs /\
    rgb cs = JArr [JNum 51; JNum 102; JNum 153] /\
    colorConvert Sample.externals "rgb" (rgb cs) = Some cs' /\
    hex cs' = JStr "336699".
Proof.
  do 2 eexists. repeat split.
Qed.

(** ** Validation of hex strings *)

(** *** A number read from an integer is a number *)

Lemma shr_1_nonneg mrs : (0 <= shr_m mrs)%Z -> (0 <= shr_m (shr_1 mrs))%Z.
Proof.
  destruct mrs as [m r s]. cbn [shr_m].
  destruct m as [| [p | p |] | p]; cbn; lia.
Qed.

Lemma iter_pos_invariant {A : Type} (P : A -> Prop) (f : A -> A) :
  (forall x, P x -> P (f x)) ->
  forall (n : positive) (x : A), P x -> P (SpecFloat.iter_pos f n x).
Proof.
  intros Hf. induction n as [n IH | n IH |]; intros x Hx; cbn; auto.
Qed.

Lemma shr_fexp_nonneg prec emax m e l :
  (0 <= m)%Z -> (0 <= shr_m (fst (shr_fexp prec emax m e l)))%Z.
Proof.
  intros Hm. unfold shr_fexp, shr.
  assert (0 <= shr_m (shr_record_of_loc m l))%Z as H0
      by (destruct l as [| []]; exact Hm).
  destruct (fexp prec emax (Zdigits2 m + e) - e)%Z; cbn [fst]; try exact H0.
  apply (iter_pos_invariant (fun mrs => 0 <= shr_m mrs)%Z);
    [apply shr_1_nonneg | exact H0].
Qed.

Lemma round_nearest_even_nonneg mx lx :
  (0 <= mx)%Z -> (0 <= round_nearest_even mx lx)%Z.
Proof.
  intros H. destruct lx as [| []]; cbn; try destruct (Z.even mx); lia.
Qed.

Lemma binary_round_aux_not_nan prec emax sx mx ex lx :
  (0 <= mx)%Z -> binary_round_aux prec emax sx mx ex lx <> S754_nan.
Proof.
  intros Hm. unfold binary_round_aux.
  pose proof (shr_fexp_nonneg prec emax mx ex lx Hm) as H1.
  destruct (shr_fexp prec emax mx ex lx) as [mrs' e']. cbn [fst] in H1.
  pose proof (shr_fexp_nonneg prec emax _ e' loc_Exact
                (round_nearest_even_nonneg _ (loc_of_shr_record mrs') H1)) as H2.
  destruct (shr_fexp prec emax _ e' loc_Exact) as [mrs'' e'']. cbn [fst] in H2.
  destruct (shr_m mrs'') as [| m | m]; try discriminate; [| lia].
  destruct (e'' <=? emax - prec)%Z; discriminate.
Qed.

Lemma binary_normalize_not_nan prec emax m e szero :
  binary_normalize prec emax m e szero <> S754_nan.
Proof.
  unfold binary_normalize, binary_round.
  destruct m as [| p | p]; try discriminate;
    destruct (shl_align _ _ _) as [mz ez];
    apply binary_round_aux_not_nan; lia.
Qed.

Lemma SFeqb_refl x : x <> S754_nan -> SFeqb x x = true.
Proof.
  intros Hx. unfold SFeqb, SFcompare.
  destruct x as [s | s | | s m e]; try reflexivity.
  - destruct s; reflexivity.
  - contradiction.
  - rewrite Z.compare_refl.
    change (PosDef.Pos.compare_cont Eq m m) with (Pos.compare m m).
    rewrite Pos.compare_refl. destruct s; reflexivity.
Qed.

Lemma of_uint63_not_nan n : is_nan (of_uint63 n) = false.
Proof.
  unfold is_nan. rewrite FloatAxioms.eqb_spec, of_uint63_spec.
  rewrite SFeqb_refl; [reflexivity | apply binary_normalize_not_nan].
Qed.

Lemma number_of_Z_not_nan (z : Z) :
  (0 <= z < 2 ^ 63)%Z -> is_nan (number_of_Z z) = false.
Proof.
  intros [H0 H1]. unfold number_of_Z.
  destruct (Z.ltb_spec z 0); [lia |].
  destruct (Z.ltb_spec z (2 ^ 63)); [| lia].
  apply of_uint63_not_nan.
Qed.

(** *** Hex digits *)

Lemma hex_digit_value_range (c : ascii) (d : Z) :
  hex_digit_value c = Some d -> (0 <= d < 16)%Z.
Proof.
  unfold hex_digit_value.
  repeat match goal with
         | |- context [if ?b then _ else _] => destruct b eqn:?
         end; intros H; inversion H; subst;
    repeat match goal with
           | E : (_ && _)%bool = true |- _ => apply andb_prop in E; destruct E
           | E : (_ <=? _)%N = true |- _ => apply N.leb_le in E
           end; lia.
Qed.

Lemma hex_digits_value_range (l : list ascii) :
  forall acc z,
    hex_digits_value acc l = Some z -> (0 <= acc)%Z ->
    (0 <= z < (acc + 1) * 16 ^ Z.of_nat (List.length l))%Z.
Proof.
  induction l as [| c l IH]; intros acc z H Hacc.
  - cbn in H. injection H as <-. cbn. lia.
  - cbn [hex_digits_value] in H.
    destruct (hex_digit_value c) as [d |] eqn:Hd; [| discriminate].
    apply hex_digit_value_range in Hd.
    apply IH in H; [| lia].
    replace (Z.of_nat (List.length (c :: l)))
      with (1 + Z.of_nat (List.length l))%Z by (cbn [List.length]; lia).
    rewrite Z.pow_add_r by lia.
    assert (0 < 16 ^ Z.of_nat (List.length l))%Z by (apply Z.pow_pos_nonneg; lia).
    nia.
Qed.

Lemma hex_digits_value_some (l : list ascii) :
  forall acc, (exists z, hex_digits_value acc l = Some z) <-> Forall hex_digit l.
Proof.
  induction l as [| c l IH]; intros acc.
  - split; [constructor | intros _; eexists; reflexivity].
  - cbn [hex_digits_value]. split.
    + intros [z H]. destruct (hex_digit_value c) as [d |] eqn:Hd; [| discriminate].
      constructor.
      * unfold hex_digit, is_hex_digit. rewrite Hd. reflexivity.
      * apply (IH (16 * acc + d)%Z). eauto.
    + intros H. inversion H as [| ? ? Hc Hl]; subst.
      unfold hex_digit, is_hex_digit in Hc.
      destruct (hex_digit_value c) as [d |]; [| discriminate].
      apply IH. exact Hl.
Qed.

Lemma hex_digit_not_white_space (c : ascii) : hex_digit c -> is_white_space c = false.
Proof.
  unfold hex_digit.
  destruct c as [[] [] [] [] [] [] [] []]; vm_compute; intros H;
    first [reflexivity | discriminate H].
Qed.

(** *** Trimming *)

Lemma drop_while_app_last {A : Type} (p : A -> bool) (l : list A) (a : A) :
  p a = false -> drop_while p (l ++ [a])%list = (drop_while p l ++ [a])%list.
Proof.
  intros Ha. induction l as [| x l IH]; cbn.
  - rewrite Ha. reflexivity.
  - destruct (p x); [exact IH | reflexivity].
Qed.

Lemma drop_while_all {A : Type} (p : A -> bool) (l l' : list A) :
  Forall (fun x => p x = true) l -> drop_while p (l ++ l')%list = drop_while p l'.
Proof.
  induction 1 as [| x l Hx Hl IH]; cbn; [reflexivity |].
  rewrite Hx. exact IH.
Qed.

Lemma trim_end_cons (a : ascii) (l : list ascii) :
  is_white_space a = false -> trim_end (a :: l) = a :: trim_end l.
Proof.
  intros Ha. unfold trim_end. cbn [rev].
  rewrite drop_while_app_last by exact Ha.
  rewrite rev_app_distr. reflexivity.
Qed.

Lemma trim_marker (l : list ascii) :
  trim ("0"%char :: "x"%char :: l) = "0"%char :: "x"%char :: trim_end l.
Proof.
  unfold trim. cbn [drop_while].
  change (is_white_space "0") with false. cbv iota.
  fold (trim_end ("0"%char :: "x"%char :: l)).
  rewrite !trim_end_cons by reflexivity. reflexivity.
Qed.

(** What is cut is white space, and what stays does not end in any. *)
Lemma drop_while_split {A : Type} (p : A -> bool) (l : list A) :
  exists cut, l = (cut ++ drop_while p l)%list /\ Forall (fun x => p x = true) cut.
Proof.
  induction l as [| x l (cut & Hl & Hcut)]; cbn.
  - exists []. split; [reflexivity | constructor].
  - destruct (p x) eqn:Hx.
    + exists (x :: cut). split; [cbn; congruence | constructor; assumption].
    + exists []. split; [reflexivity | constructor].
Qed.

Lemma trim_end_split (l : list ascii) :
  exists spaces, l = (trim_end l ++ spaces)%list /\ Forall white_space spaces.
Proof.
  destruct (drop_while_split is_white_space (rev l)) as (cut & Hl & Hcut).
  exists (rev cut). split.
  - unfold trim_end. rewrite <- rev_app_distr, <- Hl, rev_involutive. reflexivity.
  - apply Forall_rev. exact Hcut.
Qed.

Lemma trim_end_digits (digits spaces : list ascii) :
  Forall hex_digit digits -> Forall white_space spaces ->
  trim_end (digits ++ spaces) = digits.
Proof.
  intros Hd Hs. unfold trim_end. rewrite rev_app_distr.
  rewrite drop_while_all by (apply Forall_rev; exact Hs).
  destruct (rev digits) as [| c r] eqn:Hr.
  - cbn. apply (f_equal (@rev ascii)) in Hr. rewrite rev_involutive in Hr.
    symmetry. exact Hr.
  - cbn [drop_while].
    assert (hex_digit c) as Hc.
    { apply Forall_rev in Hd. rewrite Hr in Hd. inversion Hd; assumption. }
    rewrite (hex_digit_not_white_space c Hc).
    rewrite <- Hr. apply rev_involutive.
Qed.

Lemma trim_end_length (l : list ascii) :
  (List.length (trim_end l) <= List.length l)%nat.
Proof.
  destruct (trim_end_split l) as (spaces & Hl & _).
  rewrite Hl at 2. rewrite length_app. lia.
Qed.

(** *** The hex case of [colorValidate] *)

Lemma hex_case (X : Externals) (s : string) :
  colorValidate X "hex" (JStr s) =
    Ok (JBool ((Z.of_nat (String.length s) =? 6)%Z &&
               negb (isNaN X (JStr ("0x" ++ s))))).
Proof.
  reflexivity.
Qed.

(** A one-element array is unwrapped first. *)
Lemma hex_case_wrapped (X : Externals) (v : jsval) :
  colorValidate X "hex" (JArr [v]) =
    Ok (JBool match v with
              | JStr s => (Z.of_nat (String.length s) =? 6)%Z &&
                          negb (isNaN X (JStr ("0x" ++ s)))
              | _ => false
              end).
Proof.
  reflexivity.
Qed.

Lemma marked_number (X : Externals) (s : string) :
  StringToNumber X ("0x" ++ s) =
    match trim_end (list_ascii_of_string s),
          hex_digits_value 0 (trim_end (list_ascii_of_string s)) with
    | _ :: _, Some z => number_of_Z z
    | _, _ => nan
    end.
Proof.
  unfold StringToNumber.
  change (list_ascii_of_string ("0x" ++ s))
    with ("0"%char :: "x"%char :: list_ascii_of_string s).
  rewrite trim_marker.
  destruct (trim_end (list_ascii_of_string s)); reflexivity.
Qed.

Lemma length_list_of_string (s : string) :
  List.length (list_ascii_of_string s) = String.length s.
Proof.
  induction s as [| c s IH]; cbn; congruence.
Qed.

(** With at most fifteen characters after the marker, the reading is a
    number exactly when what remains after trimming the end is a
    non-empty run of hex digits. *)
Lemma marked_number_nan (X : Externals) (s : string) :
  (String.length s <= 15)%nat ->
  isNaN X (JStr ("0x" ++ s)) = false <->
  exists digits spaces,
    list_ascii_of_string s = (digits ++ spaces)%list /\
    digits <> [] /\ Forall hex_digit digits /\ Forall white_space spaces.
Proof.
  intros Hlen. unfold isNaN. cbn [ToNumber]. rewrite marked_number.
  pose proof (trim_end_length (list_ascii_of_string s)) as Hle.
  rewrite length_list_of_string in Hle.
  destruct (trim_end_split (list_ascii_of_string s)) as (spaces & Hs & Hsp).
  split.
  - intros H.
    destruct (trim_end (list_ascii_of_string s)) as [| c d] eqn:Ht;
      [discriminate H |].
    destruct (hex_digits_value 0 (c :: d)) as [z |] eqn:Hz; [| discriminate H].
    exists (c :: d), spaces. repeat split; try assumption; try discriminate.
    apply (hex_digits_value_some (c :: d) 0%Z). eauto.
  - intros (digits & spaces' & Hl & Hne & Hd & Hsp').
    rewrite Hl in *. rewrite (trim_end_digits digits spaces' Hd Hsp') in *.
    destruct digits as [| c d]; [contradiction |].
    destruct (proj2 (hex_digits_value_some (c :: d) 0%Z) Hd) as [z Hz].
    rewrite Hz. apply number_of_Z_not_nan.
    apply hex_digits_value_range in Hz; [| lia].
    assert (16 ^ Z.of_nat (List.length (c :: d)) <= 16 ^ 15)%Z
      by (apply Z.pow_le_mono_r; lia).
    change (16 ^ 15)%Z with 1152921504606846976%Z in *.
    change (2 ^ 63)%Z with 9223372036854775808%Z. lia.
Qed.

(** What the hex case accepts, exactly: a string of six characters made
    of one or more hex digits followed by white space only. *)
Theorem colorValidate_hex_exact :
  forall (X : Externals) (s : string),
    colorValidate X "hex" (JStr s) = Ok (JBool true) <->
    String.length s = 6%nat /\
    exists digits spaces,
      list_ascii_of_string s = (digits ++ spaces)%list /\
      digits <> [] /\ Forall hex_digit digits /\ Forall white_space spaces.
Proof.
  intros X s. rewrite hex_case. split.
  - intros H. injection H as H. apply andb_prop in H. destruct H as [H6 Hn].
    apply Z.eqb_eq in H6. assert (String.length s = 6%nat) as Hlen by lia.
    split; [exact Hlen |].
    apply (marked_number_nan X s); [lia |].
    destruct (isNaN X _); [discriminate Hn | reflexivity].
  - intros [Hlen Hd].
    apply (marked_number_nan X s) in Hd; [| lia].
    rewrite Hd, Hlen. reflexivity.
Qed.

(** The boundary named by the spec, where the code agrees with it. *)
Lemma colorValidate_hex_boundary :
  forall X : Externals,
    (forall s, String.length s <> 6%nat ->
               colorValidate X "hex" (JStr s) = Ok (JBool false)) /\
    colorValidate X "hex" (JStr "GGGGGG") = Ok (JBool false) /\
    colorValidate X "hex" (JStr "000000") = Ok (JBool true) /\
    colorValidate X "hex" (JStr "336699") = Ok (JBool true) /\
    (forall s, colorValidate X "hex" (JArr [JStr s]) = colorValidate X "hex" (JStr s)).
Proof.
  intros X. repeat split.
  intros s Hs. rewrite hex_case.
  destruct (Z.eqb_spec (Z.of_nat (String.length s)) 6); [lia | reflexivity].
Qed.

(** C3.  A string is not rejected for holding a character that is no hex
    digit: five hex digits followed by a space are six characters, and
    [Number] trims the space before it reads the digits. *)
Theorem colorValidate_hex_trailing_space :
  forall X : Externals,
    colorValidate X "hex" (JStr "12345 ") = Ok (JBool true) /\
    is_hex_digit " " = false.
Proof.
  intros X. split; reflexivity.
Qed.

(** ** The gradient ramp *)

Lemma join_array (X : Externals) (v : jsval) (sep : string) :
  is_array v -> exists joined, join X v sep = Ok joined.
Proof.
  intros [l ->]. eexists. reflexivity.
Qed.

Lemma generateGrandients_invalid (X : Externals) (hex : jsval) :
  colorValidate X "hex" hex = Ok (JBool false) ->
  generateGrandients X hex = Ok [].
Proof.
  intros H. unfold generateGrandients. rewrite H. reflexivity.
Qed.

Lemma generateGrandients_valid (X : Externals) (hex : jsval) (channels : string) :
  colorValidate X "hex" hex = Ok (JBool true) ->
  join X (hex_toRgb (converter X) hex) "," = Ok channels ->
  generateGrandients X hex =
    Ok (gradstop X
          {| stops := 8;
             inputFormat := "rgb";
             colorArray :=
               [string_index
                  (gradstop X
                     {| stops := 8;
                        inputFormat := "hex";
                        colorArray := [JStr "#212121";
                                       JStr ("#" ++ ToString X hex);
                                       JStr "#FFFFFF"] |}) 1;
                JStr ("rgb(" ++ channels ++ ")");
                string_index
                  (gradstop X
                     {| stops := 8;
                        inputFormat := "hex";
                        colorArray := [JStr "#212121";
                                       JStr ("#" ++ ToString X hex);
                                       JStr "#FFFFFF"] |}) 6] |}).
Proof.
  intros Hv Hj. unfold generateGrandients. rewrite Hv. cbn [bind ToBoolean negb].
  rewrite Hj. reflexivity.
Qed.


Lemma sample_gradstop_contract : gradstop_contract Sample.externals.
Proof.
  intros o. cbn. unfold Sample.gradstop.
  rewrite length_map, length_seq. reflexivity.
Qed.


(** ** The theme pipeline *)

(** *** Running the store monad *)

Lemma bind_lift {A B : Type} (r : outcome A) (k : A -> M B) (w : world) :
  bindM (lift r) k w = match r with Ok a => k a w | Throw e => Throw e end.
Proof.
  destruct r; reflexivity.
Qed.

Lemma bind_ret {A B : Type} (a : A) (k : A -> M B) (w : world) :
  bindM (ret a) k w = k a w.
Proof.
  reflexivity.
Qed.

Lemma bind_assoc {A B C : Type} (m : M A) (f : A -> M B) (k : B -> M C) (w : world) :
  bindM (bindM m f) k w = bindM m (fun a => bindM (f a) k) w.
Proof.
  unfold bindM. destruct (m w) as [[a w'] |]; reflexivity.
Qed.

Lemma bind_new_array {B : Type} (c : list string) (k : ref -> M B) (w : world) :
  bindM (new_array c) k w =
    k (List.length (arrays w))
      {| arrays := (arrays w ++ [c])%list;
         cssText := cssText w;
         classList := classList w |}.
Proof.
  reflexivity.
Qed.

Lemma bind_array_get {B : Type} (a : ref) (i : nat) (k : option string -> M B)
      (w : world) :
  bindM (array_get a i) k w = k (nth_error (contents w a) i) w.
Proof.
  reflexivity.
Qed.

Lemma bind_array_contents {B : Type} (a : ref) (k : list string -> M B) (w : world) :
  bindM (array_contents a) k w = k (contents w a) w.
Proof.
  reflexivity.
Qed.

Lemma bind_array_reverse {B : Type} (a : ref) (k : ref -> M B) (w : world) :
  bindM (array_reverse a) k w =
    k a {| arrays := update (arrays w) a (rev (contents w a));
           cssText := cssText w;
           classList := classList w |}.
Proof.
  reflexivity.
Qed.

Lemma contents_fresh (l : list (list string)) (c : list string) (t : string)
      (cl : list string) :
  contents {| arrays := (l ++ [c])%list; cssText := t; classList := cl |}
           (List.length l) = c.
Proof.
  unfold contents. cbn [arrays]. apply nth_middle.
Qed.

Lemma update_fresh {A : Type} (l : list A) (c c' : A) :
  update (l ++ [c])%list (List.length l) c' = (l ++ [c'])%list.
Proof.
  induction l as [| x l IH]; cbn; [reflexivity | rewrite IH; reflexivity].
Qed.

(** One step of a run [H : m w = Ok _]: the first action of [m] is
    performed; a pure step that may throw is decided by computation when
    it can be, and otherwise its successful outcome is named. *)
Ltac step H :=
  first
    [ rewrite bind_assoc in H
    | rewrite bind_ret in H
    | rewrite bind_new_array in H
    | rewrite bind_array_get in H
    | rewrite bind_array_contents in H
    | rewrite bind_array_reverse in H
    | rewrite bind_lift in H;
      lazymatch type of H with
      | match ?r with Ok _ => _ | Throw _ => _ end = _ =>
          lazymatch r with
          | Ok _ => cbv beta iota in H
          | Throw _ => discriminate H
          | _ => let r' := eval hnf in r in
                 lazymatch r' with
                 | Ok _ => change r with r' in H; cbv beta iota in H
                 | Throw _ => discriminate H
                 | _ => destruct r eqn:?; [| discriminate H]
                 end
          end
      | _ => idtac
      end ].

(** *** What a successful run of [generateCssColor] has done *)

Lemma generateCssColor_run (X : Externals) (type : string) (value : jsval)
      (w w1 : world) (theme : Theme) :
  generateCssColor X type value w = Ok (theme, w1) ->
  exists ramp dark,
    colorConvert X type value = Some (colors theme) /\
    yiqContrastRatio X (rgb (colors theme)) = Ok (contrast theme) /\
    generateGrandients X (hex (colors theme)) = Ok ramp /\
    nth_error ramp (if result (contrast theme) =? "black" then 7 else 1)
      = Some dark /\
    gradients theme = List.length (arrays w) /\
    w1 = {| arrays := (arrays w ++ [rev ramp])%list;
            cssText := cssText w;
            classList := classList w |}.
Proof.
  intros H. unfold generateCssColor in H.
  do 5 step H.
  rewrite ?contents_fresh in H.
  destruct (colorConvert X type value) as [cs |] eqn:Hcs; [| discriminate].
  match goal with E : defined (Some cs) = Ok _ |- _ => injection E as <- end.
  match goal with E : generateGrandients _ _ = Ok ?r |- _ => rename r into ramp end.
  destruct (result _ =? "black") eqn:Hblack.
  - repeat step H. rewrite ?contents_fresh, ?update_fresh in *.
    unfold ret in H. injection H as <- <-. cbn [colors contrast gradients].
    rewrite Hblack.
    destruct (nth_error ramp 7) as [dark |] eqn:Hdark; [| discriminate].
    exists ramp, dark. repeat split; try assumption.
    rewrite update_fresh. reflexivity.
  - repeat step H. rewrite ?contents_fresh, ?update_fresh in *.
    unfold ret in H. injection H as <- <-. cbn [colors contrast gradients].
    rewrite Hblack.
    destruct (nth_error ramp 1) as [dark |] eqn:Hdark; [| discriminate].
    exists ramp, dark. repeat split; try assumption.
    rewrite update_fresh. reflexivity.
Qed.

(** *** The empty ramp *)

(** C1.  When the hex field of the converted colour fails validation the
    ramp is empty, and [generateCssColor] then does not answer a Theme:
    the dark colour read from the ramp is [undefined], and calling
    [replace] on it throws a [TypeError]. *)
Theorem generateCssColor_throws_on_empty_ramp :
  forall (X : Externals) (type : string) (value : jsval) (cs : ColorSet)
         (w : world),
    colorConvert X type value = Some cs ->
    colorValidate X "hex" (hex cs) = Ok (JBool false) ->
    generateGrandients X (hex cs) = Ok [] /\
    generateCssColor X type value w = Throw TypeError.
Proof.
  intros X type value cs w Hcs Hinvalid.
  pose proof (generateGrandients_invalid X (hex cs) Hinvalid) as Hempty.
  split; [exact Hempty |].
  destruct (generateCssColor X type value w) as [[theme w1] | []] eqn:Hrun;
    [| reflexivity].
  exfalso. apply generateCssColor_run in Hrun.
  destruct Hrun as (ramp & dark & Hc & _ & Hr & Hd & _).
  rewrite Hcs in Hc. injection Hc as Hc. subst cs.
  rewrite Hempty in Hr. injection Hr as Hr. subst ramp.
  destruct (result (contrast theme) =? "black"); discriminate Hd.
Qed.

Lemma generateCssColor_throws_on_GGGGGG :
  generateGrandients Sample.externals (JStr "GGGGGG") = Ok [] /\
  generateCssColor Sample.externals "hex" (JStr "GGGGGG") empty_world
    = Throw TypeError.
Proof.
  exact (generateCssColor_throws_on_empty_ramp
           Sample.externals "hex" (JStr "GGGGGG") _ empty_world
           eq_refl eq_refl).
Defined.

(** *** The order of the gradients field *)

(** C7.  The reversal made for the [--gradient-N] declarations is made in
    place, on the array the Theme answers: after [generateCssColor] the
    gradients field holds the ramp in reverse, lightest anchor first.
    [calculateColor] reverses that same array once more, so what it
    answers is the ramp in its original order. *)
Theorem gradients_reversed_in_place :
  forall (X : Externals) (type : string) (value : jsval) (animated : bool)
         (w w1 : world) (theme : Theme),
    generateCssColor X type value w = Ok (theme, w1) ->
    exists ramp,
      generateGrandients X (hex (colors theme)) = Ok ramp /\
      contents w1 (gradients theme) = rev ramp /\
      exists c w2,
        calculateColor X type value animated w = Ok (c, w2) /\
        calc_gradients c = gradients theme /\
        contents w2 (gradients theme) = ramp.
Proof.
  intros X type value animated w w1 theme Hrun.
  destruct (generateCssColor_run X type value w w1 theme Hrun)
    as (ramp & dark & _ & _ & Hramp & _ & Href & Hw1).
  exists ramp. split; [exact Hramp |].
  assert (contents w1 (gradients theme) = rev ramp) as Hrev
      by (rewrite Href, Hw1; apply contents_fresh).
  split; [exact Hrev |].
  unfold calculateColor. unfold bindM at 1. rewrite Hrun.
  destruct (result (contrast theme) =? "black");
    (do 2 eexists; split; [reflexivity |]; split; [reflexivity |]);
    unfold contents in *; cbn [arrays];
    rewrite Hw1, Href in *; cbn [arrays] in *;
    rewrite nth_middle in *;
    rewrite update_fresh, nth_middle, rev_involutive; reflexivity.
Qed.

Lemma gradients_reversed_336699 :
  exists theme w1,
    generateCssColor Sample.externals "hex" (JStr "336699") empty_world
      = Ok (theme, w1) /\
    generateGrandients Sample.externals (JStr "336699")
      = Ok ["rgb(41, 54, 66)"; "rgb(46, 69, 90)"; "rgb(58, 86, 114)";
            "rgb(75, 106, 137)"; "rgb(97, 129, 160)"; "rgb(126, 154, 182)";
            "rgb(160, 182, 204)"; "rgb(200, 213, 225)"] /\
    contents w1 (gradients theme)
      = ["rgb(200, 213, 225)"; "rgb(160, 182, 204)"; "rgb(126, 154, 182)";
         "rgb(97, 129, 160)"; "rgb(75, 106, 137)"; "rgb(58, 86, 114)";
         "rgb(46, 69, 90)"; "rgb(41, 54, 66)"].
Proof.
  destruct (generateCssColor Sample.externals "hex" (JStr "336699") empty_world)
    as [[theme w1] | e] eqn:Hr; [| vm_compute in Hr; discriminate Hr].
  destruct (gradients_reversed_in_place
              Sample.externals "hex" (JStr "336699") true empty_world w1 theme Hr)
    as (ramp & Hramp & Hrev & _).
  vm_compute in Hr. injection Hr as Htheme Hw1. subst theme w1.
  do 2 eexists. split; [reflexivity |].
  vm_compute in Hramp. injection Hramp as Hramp. subst ramp.
  split; [reflexivity | exact Hrev].
Defined.

(** ** Repeated runs of the theme pipeline *)

(** One step of a run in the goal, the counterpart of [step]: a pure step
    is decided by computation or by an equation at hand. *)
Ltac forward :=
  first
    [ rewrite bind_assoc
    | rewrite bind_ret
    | rewrite bind_new_array
    | rewrite bind_array_get
    | rewrite bind_array_contents
    | rewrite bind_array_reverse
    | rewrite bind_lift;
      lazymatch goal with
      | |- match ?r with Ok _ => _ | Throw _ => _ end = _ =>
          lazymatch r with
          | Ok _ => cbv beta iota zeta
          | _ => let r' := eval hnf in r in
                 lazymatch r' with
                 | Ok _ => change r with r'; cbv beta iota zeta
                 | _ => match goal with
                        | E : r = Ok _ |- _ => rewrite E; cbv beta iota zeta
                        end
                 end
          end
      | _ => idtac
      end ].

Lemma length_gradient_declarations (l : list string) :
  forall index, List.length (gradient_declarations index l) = List.length l.
Proof.
  induction l as [| g l IH]; intros index; cbn;
    [reflexivity | rewrite IH; reflexivity].
Qed.

(** The store matters to a run only through the place of the fresh
    array: from any other store the same Theme comes out. *)
Lemma generateCssColor_any_world (X : Externals) (type : string) (value : jsval)
      (w w1 : world) (theme : Theme) :
  generateCssColor X type value w = Ok (theme, w1) ->
  forall w' : world,
  exists ramp,
    generateGrandients X (hex (colors theme)) = Ok ramp /\
    List.length (cssVariable theme) = (6 + List.length ramp)%nat /\
    generateCssColor X type value w' =
      Ok ({| colors := colors theme;
             contrast := contrast theme;
             gradients := List.length (arrays w');
             cssVariable := cssVariable theme;
             variable := variable theme |},
          {| arrays := (arrays w' ++ [rev ramp])%list;
             cssText := cssText w';
             classList := classList w' |}).
Proof.
  intros H w'. unfold generateCssColor in *.
  do 5 step H.
  rewrite ?contents_fresh in H.
  match goal with E : generateGrandients _ _ = Ok ?r |- _ => rename r into ramp end.
  exists ramp.
  destruct (result _ =? "black") eqn:Hblack.
  - repeat step H. rewrite ?contents_fresh, ?update_fresh in *.
    unfold ret in H. injection H as <- <-.
    cbn [colors contrast gradients cssVariable variable].
    rewrite ?update_fresh, ?contents_fresh.
    split; [assumption |]. cbv zeta in *.
    split.
    { cbn [List.length].
      rewrite length_gradient_declarations, length_rev. reflexivity. }
    repeat (forward; rewrite ?contents_fresh). rewrite Hblack.
    repeat (forward; cbn [arrays cssText classList];
            rewrite ?update_fresh, ?contents_fresh).
    unfold ret. do 2 f_equal. all: reflexivity.
  - repeat step H. rewrite ?contents_fresh, ?update_fresh in *.
    unfold ret in H. injection H as <- <-.
    cbn [colors contrast gradients cssVariable variable].
    rewrite ?update_fresh, ?contents_fresh.
    split; [assumption |]. cbv zeta in *.
    split.
    { cbn [List.length].
      rewrite length_gradient_declarations, length_rev. reflexivity. }
    repeat (forward; rewrite ?contents_fresh). rewrite Hblack.
    repeat (forward; cbn [arrays cssText classList];
            rewrite ?update_fresh, ?contents_fresh).
    unfold ret. do 2 f_equal. all: reflexivity.
Qed.

(** Idempotence: a second run on the same input, from the store the
    first run left, answers the same colours, contrast, declarations and
    variables, and a new array with the same contents; neither run
    touches the page. *)
Theorem generateCssColor_idempotent :
  forall (X : Externals) (type : string) (value : jsval) (w w1 : world)
         (theme1 : Theme),
    generateCssColor X type value w = Ok (theme1, w1) ->
    exists theme2 w2,
      generateCssColor X type value w1 = Ok (theme2, w2) /\
      colors theme2 = colors theme1 /\
      contrast theme2 = contrast theme1 /\
      cssVariable theme2 = cssVariable theme1 /\
      variable theme2 = variable theme1 /\
      gradients theme2 <> gradients theme1 /\
      contents w2 (gradients theme2) = contents w1 (gradients theme1) /\
      cssText w2 = cssText w /\ classList w2 = classList w.
Proof.
  intros X type value w w1 theme1 Hrun.
  destruct (generateCssColor_run X type value w w1 theme1 Hrun)
    as (ramp & _ & _ & _ & Hramp & _ & Href & Hw1).
  destruct (generateCssColor_any_world X type value w w1 theme1 Hrun w1)
    as (ramp' & Hramp' & _ & Hagain).
  rewrite Hramp in Hramp'. injection Hramp' as <-.
  do 2 eexists. split; [exact Hagain |].
  cbn [colors contrast cssVariable variable gradients cssText classList].
  repeat split.
  - rewrite Href, Hw1. cbn [arrays]. rewrite length_app. cbn. lia.
  - rewrite contents_fresh, Href, Hw1. symmetry. apply contents_fresh.
  - rewrite Hw1. reflexivity.
  - rewrite Hw1. reflexivity.
Qed.

Lemma generateCssColor_idempotent_336699 :
  exists theme1 w1 theme2 w2,
    generateCssColor Sample.externals "hex" (JStr "336699") empty_world
      = Ok (theme1, w1) /\
    generateCssColor Sample.externals "hex" (JStr "336699") w1
      = Ok (theme2, w2) /\
    cssVariable theme2 = cssVariable theme1 /\
    contents w2 (gradients theme2) = contents w1 (gradients theme1).
Proof.
  destruct (generateCssColor Sample.externals "hex" (JStr "336699") empty_world)
    as [[theme1 w1] | e] eqn:Hr; [| vm_compute in Hr; discriminate Hr].
  destruct (generateCssColor_idempotent
              Sample.externals "hex" (JStr "336699") empty_world w1 theme1 Hr)
    as (theme2 & w2 & Hagain & _ & _ & Hcss & _ & _ & Hcontents & _).
  exists theme1, w1, theme2, w2. repeat split; assumption.
Defined.

(** The declarations of a Theme: six named ones and one per stop of the
    ramp. *)
Theorem cssVariable_count :
  forall (X : Externals) (type : string) (value : jsval) (w w1 : world)
         (theme : Theme),
    generateCssColor X type value w = Ok (theme, w1) ->
    exists ramp,
      generateGrandients X (hex (colors theme)) = Ok ramp /\
      List.length (cssVariable theme) = (6 + List.length ramp)%nat.
Proof.
  intros X type value w w1 theme Hrun.
  destruct (generateCssColor_any_world X type value w w1 theme Hrun w)
    as (ramp & Hramp & Hcount & _).
  exists ramp. split; assumption.
Qed.

Lemma cssVariable_count_336699 :
  exists theme w1,
    generateCssColor Sample.externals "hex" (JStr "336699") empty_world
      = Ok (theme, w1) /\
    List.length (cssVariable theme) = 14%nat.
Proof.
  destruct (generateCssColor Sample.externals "hex" (JStr "336699") empty_world)
    as [[theme w1] | e] eqn:Hr; [| vm_compute in Hr; discriminate Hr].
  destruct (cssVariable_count
              Sample.externals "hex" (JStr "336699") empty_world w1 theme Hr)
    as (ramp & Hramp & Hcount).
  exists theme, w1. split; [reflexivity |].
  rewrite Hcount.
  vm_compute in Hr. injection Hr as Htheme _. subst theme.
  vm_compute in Hramp. injection Hramp as Hramp. subst ramp. reflexivity.
Defined.

(** ** Outcomes of validation *)



(** X7.  Validity does not overlap between hex and the numeric models,
    nor between cmyk and the two three-channel models: what passes as hex
    fails as rgb, hsl and cmyk, and what passes as cmyk fails as rgb and
    hsl. *)
Theorem colorValidate_exclusive :
  forall (X : Externals) (v : jsval),
    (colorValidate X "hex" v = Ok (JBool true) ->
     colorValidate X "rgb" v = Ok (JBool false) /\
     colorValidate X "hsl" v = Ok (JBool false) /\
     colorValidate X "cmyk" v = Ok (JBool false)) /\
    (colorValidate X "cmyk" v = Ok (JBool true) ->
     colorValidate X "rgb" v = Ok (JBool false) /\
     colorValidate X "hsl" v = Ok (JBool false) /\
     colorValidate X "hex" v = Ok (JBool false)).
Proof.
  intros X v. split.
  - intros H.
    destruct v as [| | b | x | s | [| a [| b l]]]; try discriminate H;
      repeat split.
  - intros H.
    destruct v as [| | b | x | s | [| a [| b [| c [| d [| e l]]]]]];
      try discriminate H; repeat split.
Qed.

Lemma colorValidate_exclusive_336699 :
  colorValidate Sample.externals "rgb" (JStr "336699") = Ok (JBool false) /\
  colorValidate Sample.externals "cmyk"
    (JArr [JNum 0; JNum 0; JNum 0; JNum 100]) = Ok (JBool true) /\
  colorValidate Sample.externals "hsl"
    (JArr [JNum 0; JNum 0; JNum 0; JNum 100]) = Ok (JBool false).
Proof.
  destruct (colorValidate_exclusive Sample.externals (JStr "336699"))
    as [Hhex _].
  destruct (colorValidate_exclusive Sample.externals
              (JArr [JNum 0; JNum 0; JNum 0; JNum 100])) as [_ Hcmyk].
  split; [apply Hhex; reflexivity |].
  split; [reflexivity | apply Hcmyk; reflexivity].
Defined.

(** ** Edges of the YIQ heuristic *)

Lemma is_nan_eq (x : float) : is_nan x = true -> x = nan.
Proof.
  unfold is_nan. rewrite FloatAxioms.eqb_spec. intros H.
  apply Prim2SF_inj. change (Prim2SF nan) with S754_nan.
  destruct (Prim2SF x) eqn:E; try reflexivity;
    rewrite SFeqb_refl in H by discriminate; discriminate H.
Qed.

Lemma mul_nan_l (y : float) : (nan * y)%float = nan.
Proof.
  apply Prim2SF_inj. rewrite FloatAxioms.mul_spec. reflexivity.
Qed.

Lemma add_nan_l (y : float) : (nan + y)%float = nan.
Proof.
  apply Prim2SF_inj. rewrite FloatAxioms.add_spec. reflexivity.
Qed.

Lemma add_nan_r (x : float) : (x + nan)%float = nan.
Proof.
  apply Prim2SF_inj. rewrite FloatAxioms.add_spec.
  change (Prim2SF nan) with S754_nan. unfold SF64add, SFadd.
  destruct (Prim2SF x); reflexivity.
Qed.

Lemma div_nan_l (y : float) : (nan / y)%float = nan.
Proof.
  apply Prim2SF_inj. rewrite FloatAxioms.div_spec. reflexivity.
Qed.

Lemma yiq_nan (r g b : float) :
  is_nan r || is_nan g || is_nan b = true ->
  ((r * 299 + g * 587 + b * 114) / 1000)%float = nan.
Proof.
  intros H. apply orb_prop in H. destruct H as [H | H];
    [apply orb_prop in H; destruct H as [H | H] |];
    apply is_nan_eq in H; subst;
    repeat first [rewrite mul_nan_l | rewrite add_nan_l | rewrite add_nan_r
                 | rewrite div_nan_l]; reflexivity.
Qed.


(** X9.  A channel that is missing or not a number makes the score [NaN]
    and the decision ["white"]: in particular every array of fewer than
    three entries is judged ["white"]. *)
Theorem yiqContrastRatio_without_a_channel :
  forall (X : Externals) (l : list jsval),
    isNaN X (js_index l 0) || isNaN X (js_index l 1) || isNaN X (js_index l 2)
      = true ->
    yiqContrastRatio X (JArr l) = Ok {| yiq := nan; result := "white" |}.
Proof.
  intros X l H. unfold yiqContrastRatio. cbn [iterate bind].
  unfold isNaN in H. rewrite (yiq_nan _ _ _ H). reflexivity.
Qed.

Lemma yiqContrastRatio_two_channels :
  yiqContrastRatio Sample.externals (JArr [JNum 255; JNum 255])
    = Ok {| yiq := nan; result := "white" |}.
Proof.
  apply (yiqContrastRatio_without_a_channel Sample.externals
           [JNum 255; JNum 255]).
  reflexivity.
Defined.

(** ** When the gradient ramp throws *)


(** ** Text of a colour *)

Lemma append_assoc (a b c : string) : (a ++ b) ++ c = a ++ (b ++ c).
Proof.
  induction a as [| x a IH]; cbn; [reflexivity | rewrite IH; reflexivity].
Qed.

Lemma occurs_append (c : ascii) (a b : string) :
  occurs c (a ++ b) = occurs c a || occurs c b.
Proof.
  induction a as [| x a IH]; cbn; [reflexivity |].
  rewrite IH. apply orb_assoc.
Qed.

(** A one-character pattern that does not occur in [s] is looked for
    after [s]. *)
Lemma replace_after (c : ascii) (rep s t : string) :
  occurs c s = false ->
  replace (String c EmptyString) rep (s ++ t)
    = s ++ replace (String c EmptyString) rep t.
Proof.
  induction s as [| x s IH]; intros H; [reflexivity |].
  cbn in H. apply orb_false_elim in H. destruct H as [Hx Hs].
  cbn [append replace prefix].
  destruct (ascii_dec c x) as [-> | _].
  - rewrite Ascii.eqb_refl in Hx. discriminate Hx.
  - rewrite (IH Hs). reflexivity.
Qed.

Lemma replace_here (c : ascii) (rep t : string) :
  replace (String c EmptyString) rep (String c t) = rep ++ t.
Proof.
  cbn [replace prefix]. destruct (ascii_dec c c) as [_ | C]; [| contradiction].
  destruct t; reflexivity.
Qed.

Lemma split_after (sep : ascii) (s t : string) :
  occurs sep s = false ->
  split sep (s ++ String sep t) = s :: split sep t.
Proof.
  induction s as [| x s IH]; intros H.
  - cbn. rewrite Ascii.eqb_refl. reflexivity.
  - cbn in H. apply orb_false_elim in H. destruct H as [Hx Hs].
    cbn [append split]. rewrite Ascii.eqb_sym, Hx, (IH Hs). reflexivity.
Qed.

Lemma split_whole (sep : ascii) (s : string) :
  occurs sep s = false -> split sep s = [s].
Proof.
  induction s as [| x s IH]; intros H; [reflexivity |].
  cbn in H. apply orb_false_elim in H. destruct H as [Hx Hs].
  cbn [split]. rewrite Ascii.eqb_sym, Hx, (IH Hs). reflexivity.
Qed.

(** The alpha form of a colour in functional notation. *)
Lemma translucent (body : string) :
  occurs ")" body = false ->
  replace ")" ", 0.98)" (replace "rgb" "rgba" ("rgb(" ++ body ++ ")"))
    = "rgba(" ++ body ++ ", 0.98)".
Proof.
  intros H.
  change (replace "rgb" "rgba" ("rgb(" ++ body ++ ")"))
    with ("rgba(" ++ (body ++ ")")).
  rewrite <- append_assoc.
  rewrite (replace_after ")" ", 0.98)" ("rgba(" ++ body) ")").
  - rewrite replace_here. rewrite append_assoc. reflexivity.
  - rewrite occurs_append. rewrite H. reflexivity.
Qed.

Lemma append_empty (s : string) : s ++ "" = s.
Proof.
  induction s as [| x s IH]; cbn; [reflexivity | rewrite IH; reflexivity].
Qed.

Lemma replace_prefix (rest : string) :
  replace "rgb(" "" ("rgb(" ++ rest) = rest.
Proof.
  destruct rest; reflexivity.
Qed.

Lemma pieces_tight (a b c : string) :
  plain a -> plain b -> plain c ->
  pieces ("rgb(" ++ a ++ "," ++ b ++ "," ++ c ++ ")") = [a; b; c].
Proof.
  intros (Ha1 & Ha2 & Ha3) (Hb1 & Hb2 & Hb3) (Hc1 & Hc2 & Hc3).
  unfold pieces.
  rewrite replace_prefix.
  replace (a ++ "," ++ b ++ "," ++ c ++ ")")
    with ((a ++ "," ++ b ++ "," ++ c) ++ ")")
    by (rewrite !append_assoc; reflexivity).
  rewrite (replace_after ")" "" _ ")")
    by (rewrite !occurs_append, Ha3, Hb3, Hc3; reflexivity).
  rewrite replace_here. change ("" ++ "") with "".
  rewrite (replace_after " " "" _ "")
    by (rewrite !occurs_append, Ha2, Hb2, Hc2; reflexivity).
  change (replace " " "" "") with "". rewrite !append_empty.
  change (a ++ "," ++ b ++ "," ++ c) with (a ++ String "," (b ++ String "," c)).
  rewrite (split_after "," a _ Ha1), (split_after "," b _ Hb1),
    (split_whole "," c Hc1).
  reflexivity.
Qed.

Lemma pieces_spaced (a b c : string) :
  plain a -> plain b -> plain c ->
  pieces ("rgb(" ++ a ++ ", " ++ b ++ ", " ++ c ++ ")") = [a; b; " " ++ c].
Proof.
  intros (Ha1 & Ha2 & Ha3) (Hb1 & Hb2 & Hb3) (Hc1 & Hc2 & Hc3).
  unfold pieces.
  rewrite replace_prefix.
  replace (a ++ ", " ++ b ++ ", " ++ c ++ ")")
    with ((a ++ ", " ++ b ++ ", " ++ c) ++ ")")
    by (rewrite !append_assoc; reflexivity).
  rewrite (replace_after ")" "" _ ")")
    by (rewrite !occurs_append, Ha3, Hb3, Hc3; reflexivity).
  rewrite replace_here. change ("" ++ "") with "". rewrite append_empty.
  replace (a ++ ", " ++ b ++ ", " ++ c)
    with ((a ++ ",") ++ String " " (b ++ ", " ++ c))
    by (rewrite append_assoc; reflexivity).
  rewrite (replace_after " " "" (a ++ ",") _)
    by (rewrite occurs_append, Ha2; reflexivity).
  rewrite replace_here. change ("" ++ b ++ ", " ++ c) with (b ++ ", " ++ c).
  rewrite append_assoc.
  change ("," ++ b ++ ", " ++ c) with (String "," (b ++ String "," (" " ++ c))).
  rewrite (split_after "," a _ Ha1), (split_after "," b _ Hb1).
  rewrite (split_whole "," (" " ++ c)) by (cbn; exact Hc1).
  reflexivity.
Qed.

(** X11.  [toArray] of the rgb model splits a colour string at its commas
    after removing the prefix, the closing parenthesis and one space, the
    first.  Written without spaces the three channels come out as they
    are; written with a space after each comma, as [toString] and the
    interpolation write it, the third channel keeps its space, which is
    left to [normalize].  Anything but a string throws. *)
Theorem toArray_channels :
  forall (X : Externals) (a b c : string),
    plain a -> plain b -> plain c ->
    exists p f,
      getColorProperties X "rgb" = Some p /\ toArray p = Some f /\
      f (JStr ("rgb(" ++ a ++ "," ++ b ++ "," ++ c ++ ")"))
        = Ok (normalize X (JArr [JStr a; JStr b; JStr c])) /\
      f (JStr ("rgb(" ++ a ++ ", " ++ b ++ ", " ++ c ++ ")"))
        = Ok (normalize X (JArr [JStr a; JStr b; JStr (" " ++ c)])) /\
      (forall v, typeof v <> "string" -> f v = Throw TypeError).
Proof.
  intros X a b c Ha Hb Hc.
  do 2 eexists. split; [reflexivity |]. split; [reflexivity |].
  cbv beta iota zeta.
  fold (pieces ("rgb(" ++ a ++ "," ++ b ++ "," ++ c ++ ")")).
  fold (pieces ("rgb(" ++ a ++ ", " ++ b ++ ", " ++ c ++ ")")).
  rewrite (pieces_tight a b c Ha Hb Hc), (pieces_spaced a b c Ha Hb Hc).
  repeat split.
  intros v Hv. destruct v; try reflexivity. exfalso. apply Hv. reflexivity.
Qed.

Lemma toArray_channels_51_102_153 :
  exists p f,
    getColorProperties Sample.externals "rgb" = Some p /\
    toArray p = Some f /\
    f (JStr "rgb(51, 102, 153)") = Ok (JArr [JNum 51; JNum 102; JNum 153]).
Proof.
  destruct (toArray_channels Sample.externals "51" "102" "153")
    as (p & f & Hp & Hf & _ & Hspaced & _);
    try (repeat split; reflexivity).
  exists p, f. split; [exact Hp |]. split; [exact Hf |].
  etransitivity; [exact Hspaced | reflexivity].
Defined.

(** ** The declarations of a Theme *)

Lemma generateCssColor_declarations (X : Externals) (type : string)
      (value : jsval) (w w1 : world) (theme : Theme) :
  generateCssColor X type value w = Ok (theme, w1) ->
  exists ramp channels secondary text dark,
    generateGrandients X (hex (colors theme)) = Ok ramp /\
    join X (normalize X (rgb (colors theme))) ", " = Ok channels /\
    (if result (contrast theme) =? "black"
     then nth_error ramp 1 = Some secondary /\
          nth_error ramp 7 = Some dark /\ text = dark
     else nth_error ramp 7 = Some secondary /\
          nth_error ramp 1 = Some dark /\
          text = "rgb(" ++ channels ++ ")") /\
    cssVariable theme =
      ([declaration "primary-color" ("rgb(" ++ channels ++ ")");
        declaration "secondary-color" secondary;
        declaration "text-color" text;
        declaration "dark-color" dark;
        declaration "dark-transparent-color"
          (replace ")" ", 0.98)" (replace "rgb" "rgba" dark));
        declaration "contrast-color" (result (contrast theme))]
       ++ gradient_declarations 0 (rev ramp))%list /\
    variable theme =
      Build_ThemeVariable
        (normalize X (rgb (colors theme)))
        (normalize X (JArr (map JStr (pieces secondary))))
        (normalize X (JArr (map JStr (pieces text))))
        (if result (contrast theme) =? "black"
         then JArr [JNum 0; JNum 0; JNum 0]
         else JArr [JNum 255; JNum 255; JNum 255]).
Proof.
  intros H. unfold generateCssColor in H.
  do 5 step H.
  rewrite ?contents_fresh in H.
  match goal with E : generateGrandients _ _ = Ok ?r |- _ => rename r into ramp end.
  destruct (result _ =? "black") eqn:Hblack;
    repeat step H; rewrite ?contents_fresh, ?update_fresh in *;
    destruct (nth_error ramp 7) as [g7 |] eqn:H7; try discriminate;
    destruct (nth_error ramp 1) as [g1 |] eqn:H1; try discriminate;
    cbn [toString as_value defined bind] in *;
    destruct (join X (normalize X (rgb _)) ", ") as [channels |] eqn:Hjoin;
    try discriminate;
    cbn [bind] in *;
    repeat match goal with
           | E : Ok _ = Ok _ |- _ => injection E as E; try subst
           end;
    unfold ret in H; injection H as <- <-;
    cbn [colors contrast gradients cssVariable variable];
    rewrite ?update_fresh, ?contents_fresh; rewrite Hblack.
  - exists ramp, channels, g1, g7, g7. repeat split; assumption.
  - exists ramp, channels, g7, ("rgb(" ++ channels ++ ")"), g1.
    repeat split; assumption.
Qed.

(** X12.  The six named declarations of a Theme, in order.  The secondary
    and the dark colour are stops 1 and 7 of the ramp, exchanged by the
    contrast decision; on ["black"] the text colour is the dark colour,
    otherwise it is the primary colour. *)
Theorem named_declarations :
  forall (X : Externals) (type : string) (value : jsval) (w w1 : world)
         (theme : Theme),
    generateCssColor X type value w = Ok (theme, w1) ->
    exists ramp channels stop1 stop7,
      generateGrandients X (hex (colors theme)) = Ok ramp /\
      join X (normalize X (rgb (colors theme))) ", " = Ok channels /\
      nth_error ramp 1 = Some stop1 /\
      nth_error ramp 7 = Some stop7 /\
      let black := result (contrast theme) =? "black" in
      let primary := "rgb(" ++ channels ++ ")" in
      let dark := if black then stop7 else stop1 in
      firstn 6 (cssVariable theme) =
        [declaration "primary-color" primary;
         declaration "secondary-color" (if black then stop1 else stop7);
         declaration "text-color" (if black then stop7 else primary);
         declaration "dark-color" dark;
         declaration "dark-transparent-color"
           (replace ")" ", 0.98)" (replace "rgb" "rgba" dark));
         declaration "contrast-color" (result (contrast theme))].
Proof.
  intros X type value w w1 theme Hrun.
  destruct (generateCssColor_declarations X type value w w1 theme Hrun)
    as (ramp & channels & secondary & text & dark & Hramp & Hjoin & Hstops
        & Hcss & _).
  rewrite Hcss.
  destruct (result (contrast theme) =? "black");
    destruct Hstops as (Hs & Hd & ->).
  - exists ramp, channels, secondary, dark. repeat split; assumption.
  - exists ramp, channels, dark, secondary. repeat split; assumption.
Qed.

Lemma named_declarations_336699 :
  exists theme w1,
    generateCssColor Sample.externals "hex" (JStr "336699") empty_world
      = Ok (theme, w1) /\
    firstn 6 (cssVariable theme) =
      ["--primary-color: rgb(51, 102, 153);";
       "--secondary-color: rgb(200, 213, 225);";
       "--text-color: rgb(51, 102, 153);";
       "--dark-color: rgb(46, 69, 90);";
       "--dark-transparent-color: rgba(46, 69, 90, 0.98);";
       "--contrast-color: white;"].
Proof.
  destruct (generateCssColor Sample.externals "hex" (JStr "336699") empty_world)
    as [[theme w1] | e] eqn:Hr; [| vm_compute in Hr; discriminate Hr].
  destruct (named_declarations
              Sample.externals "hex" (JStr "336699") empty_world w1 theme Hr)
    as (ramp & channels & stop1 & stop7 & Hramp & Hjoin & H1 & H7 & Hsix).
  exists theme, w1. split; [reflexivity |].
  vm_compute in Hr. injection Hr as Htheme _. subst theme. reflexivity.
Defined.

(** X13.  When the dark colour has the form [rgb(...)], its translucent
    variant is the same colour in the [rgba] form with alpha 0.98. *)
Theorem dark_transparent_declaration :
  forall (X : Externals) (type : string) (value : jsval) (w w1 : world)
         (theme : Theme) (ramp : list string) (body : string),
    generateCssColor X type value w = Ok (theme, w1) ->
    generateGrandients X (hex (colors theme)) = Ok ramp ->
    nth_error ramp (if result (contrast theme) =? "black" then 7 else 1)
      = Some ("rgb(" ++ body ++ ")") ->
    occurs ")" body = false ->
    nth_error (cssVariable theme) 3
      = Some (declaration "dark-color" ("rgb(" ++ body ++ ")")) /\
    nth_error (cssVariable theme) 4
      = Some (declaration "dark-transparent-color"
                ("rgba(" ++ body ++ ", 0.98)")).
Proof.
  intros X type value w w1 theme ramp0 body Hrun Hramp0 Hdark Hbody.
  destruct (generateCssColor_declarations X type value w w1 theme Hrun)
    as (ramp & channels & secondary & text & dark & Hramp & Hjoin & Hstops
        & Hcss & _).
  rewrite Hramp0 in Hramp. injection Hramp as <-.
  assert (dark = "rgb(" ++ body ++ ")") as ->.
  { destruct (result (contrast theme) =? "black");
      destruct Hstops as (_ & Hd & _); congruence. }
  rewrite Hcss. cbn [nth_error app]. rewrite (translucent body Hbody).
  split; reflexivity.
Qed.

Lemma dark_transparent_declaration_336699 :
  exists theme w1,
    generateCssColor Sample.externals "hex" (JStr "336699") empty_world
      = Ok (theme, w1) /\
    nth_error (cssVariable theme) 4
      = Some "--dark-transparent-color: rgba(46, 69, 90, 0.98);".
Proof.
  destruct (generateCssColor Sample.externals "hex" (JStr "336699") empty_world)
    as [[theme w1] | e] eqn:Hr; [| vm_compute in Hr; discriminate Hr].
  exists theme, w1. split; [reflexivity |].
  refine (proj2 (dark_transparent_declaration
                   Sample.externals "hex" (JStr "336699") empty_world w1 theme
                   ["rgb(41, 54, 66)"; "rgb(46, 69, 90)"; "rgb(58, 86, 114)";
                    "rgb(75, 106, 137)"; "rgb(97, 129, 160)";
                    "rgb(126, 154, 182)"; "rgb(160, 182, 204)";
                    "rgb(200, 213, 225)"]
                   "46, 69, 90" Hr _ _ _));
    vm_compute in Hr; injection Hr as Htheme _; subst theme; reflexivity.
Defined.

Lemma nth_error_gradient_declarations (l : list string) :
  forall index j,
    nth_error (gradient_declarations index l) j =
      option_map
        (fun gradient =>
           "--gradient-" ++ decimal (N.of_nat ((index + j + 1) * 100)) ++ ": "
             ++ gradient ++ ";")
        (nth_error l j).
Proof.
  induction l as [| g l IH]; intros index j.
  - destruct j; reflexivity.
  - destruct j as [| j]; cbn [gradient_declarations nth_error option_map].
    + rewrite Nat.add_0_r. reflexivity.
    + rewrite IH. replace (S index + j + 1)%nat with (index + S j + 1)%nat by lia.
      reflexivity.
Qed.

(** X14.  The gradient declarations follow the six named ones and run
    through the ramp backwards: the declaration numbered [(j + 1) * 100]
    carries stop [n - 1 - j] of a ramp of [n] stops, so [--gradient-100]
    carries the last stop. *)
Theorem gradient_declaration_at :
  forall (X : Externals) (type : string) (value : jsval) (w w1 : world)
         (theme : Theme) (ramp : list string) (j : nat),
    generateCssColor X type value w = Ok (theme, w1) ->
    generateGrandients X (hex (colors theme)) = Ok ramp ->
    (j < List.length ramp)%nat ->
    exists stop,
      nth_error ramp (List.length ramp - 1 - j) = Some stop /\
      nth_error (cssVariable theme) (6 + j) =
        Some ("--gradient-" ++ decimal (N.of_nat ((j + 1) * 100)) ++ ": "
                ++ stop ++ ";").
Proof.
  intros X type value w w1 theme ramp0 j Hrun Hramp0 Hj.
  destruct (generateCssColor_declarations X type value w w1 theme Hrun)
    as (ramp & channels & secondary & text & dark & Hramp & _ & _ & Hcss & _).
  rewrite Hramp0 in Hramp. injection Hramp as <-.
  destruct (nth_error ramp0 (List.length ramp0 - 1 - j)) as [stop |] eqn:Hstop;
    [| apply nth_error_None in Hstop; lia].
  exists stop. split; [reflexivity |].
  rewrite Hcss. rewrite nth_error_app2 by (cbn; lia).
  cbn [List.length]. replace (6 + j - 6)%nat with j by lia.
  rewrite nth_error_gradient_declarations, nth_error_rev.
  destruct (Nat.ltb_spec j (List.length ramp0)); [| lia].
  replace (List.length ramp0 - S j)%nat with (List.length ramp0 - 1 - j)%nat by lia.
  rewrite Hstop. reflexivity.
Qed.

Lemma gradient_declaration_at_336699 :
  exists theme w1,
    generateCssColor Sample.externals "hex" (JStr "336699") empty_world
      = Ok (theme, w1) /\
    nth_error (cssVariable theme) 6 = Some "--gradient-100: rgb(200, 213, 225);".
Proof.
  destruct (generateCssColor Sample.externals "hex" (JStr "336699") empty_world)
    as [[theme w1] | e] eqn:Hr; [| vm_compute in Hr; discriminate Hr].
  exists theme, w1. split; [reflexivity |].
  destruct (gradient_declaration_at
              Sample.externals "hex" (JStr "336699") empty_world w1 theme
              ["rgb(41, 54, 66)"; "rgb(46, 69, 90)"; "rgb(58, 86, 114)";
               "rgb(75, 106, 137)"; "rgb(97, 129, 160)";
               "rgb(126, 154, 182)"; "rgb(160, 182, 204)";
               "rgb(200, 213, 225)"] 0 Hr)
    as (stop & Hstop & Hdecl).
  - vm_compute in Hr. injection Hr as Htheme _. subst theme. reflexivity.
  - cbn. lia.
  - cbn in Hstop. injection Hstop as <-. exact Hdecl.
Defined.

(** ** When the pipeline answers *)

Lemma yiqContrastRatio_iterable (X : Externals) (v : jsval) :
  iterable v -> exists c, yiqContrastRatio X v = Ok c.
Proof.
  unfold yiqContrastRatio. destruct v; try contradiction; intros _;
    eexists; reflexivity.
Qed.

(** X15.  [generateCssColor] answers a Theme whenever the hex field of
    the converted colour validates and the collaborators keep to their
    contracts: the interpolation answers as many colours as stops, the
    converted rgb is an array, and [normalize] answers an array.  The
    Theme then carries the converted colours and a ramp of 8 stops. *)
Theorem generateCssColor_succeeds :
  forall (X : Externals) (type : string) (value : jsval) (cs : ColorSet)
         (w : world),
    colorConvert X type value = Some cs ->
    colorValidate X "hex" (hex cs) = Ok (JBool true) ->
    gradstop_contract X ->
    is_array (hex_toRgb (converter X) (hex cs)) ->
    iterable (rgb cs) ->
    is_array (normalize X (rgb cs)) ->
    exists theme w1,
      generateCssColor X type value w = Ok (theme, w1) /\
      colors theme = cs /\
      List.length (contents w1 (gradients theme)) = 8%nat.
Proof.
  intros X type value cs w Hcs Hvalid Hgrad Hrgb Hiter Hnorm.
  destruct (yiqContrastRatio_iterable X (rgb cs) Hiter) as [c Hc].
  destruct (join_array X _ "," Hrgb) as [channels Hchannels].
  pose proof (generateGrandients_valid X (hex cs) channels Hvalid Hchannels)
    as Hramp.
  set (ramp := gradstop X _) in Hramp.
  assert (List.length ramp = 8%nat) as Hlen by apply Hgrad.
  destruct ramp as [| g0 [| g1 [| g2 [| g3 [| g4 [| g5 [| g6 [| g7 [| g8 l]]]]]]]]];
    try discriminate Hlen.
  destruct (join_array X _ ", " Hnorm) as [primary Hprimary].
  destruct (result c =? "black") eqn:Hblack;
    do 2 eexists; (split; [| split]);
    [ unfold generateCssColor; rewrite bind_lift, Hcs; cbn [defined];
      repeat (forward; rewrite ?contents_fresh); rewrite Hblack;
      repeat (repeat (forward; cbn [arrays cssText classList];
                      rewrite ?update_fresh, ?contents_fresh);
              try (rewrite bind_lift; cbn [toString]; rewrite Hprimary;
                   cbn [bind]; cbv beta iota zeta));
      unfold ret; reflexivity
    | reflexivity
    | cbn [gradients]; unfold contents; cbn [arrays];
      rewrite nth_middle; reflexivity
    | unfold generateCssColor; rewrite bind_lift, Hcs; cbn [defined];
      repeat (forward; rewrite ?contents_fresh); rewrite Hblack;
      repeat (repeat (forward; cbn [arrays cssText classList];
                      rewrite ?update_fresh, ?contents_fresh);
              try (rewrite bind_lift; cbn [toString]; rewrite Hprimary;
                   cbn [bind]; cbv beta iota zeta));
      unfold ret; reflexivity
    | reflexivity
    | cbn [gradients]; unfold contents; cbn [arrays];
      rewrite nth_middle; reflexivity ].
Qed.

Lemma generateCssColor_succeeds_336699 :
  exists theme w1,
    generateCssColor Sample.externals "hex" (JStr "336699") empty_world
      = Ok (theme, w1) /\
    hex (colors theme) = JStr "336699" /\
    List.length (contents w1 (gradients theme)) = 8%nat.
Proof.
  destruct (generateCssColor_succeeds
              Sample.externals "hex" (JStr "336699") _ empty_world
              eq_refl eq_refl sample_gradstop_contract
              (ex_intro _ [JNum 51; JNum 102; JNum 153] eq_refl)
              I
              (ex_intro _ [JNum 51; JNum 102; JNum 153] eq_refl))
    as (theme & w1 & Hrun & Hcolors & Hlen).
  exists theme, w1. rewrite Hcolors. repeat split; assumption.
Defined.

(** ** What [calculateColor] does to the page *)

Lemma mem_app_single (name c : string) (l : list string) :
  mem name (l ++ [c])%list = mem name l || String.eqb name c.
Proof.
  unfold mem. rewrite existsb_app. cbn. rewrite orb_false_r. reflexivity.
Qed.

Lemma mem_filter_other (name c : string) (l : list string) :
  mem name (filter (fun x => negb (String.eqb c x)) l)
    = mem name l && negb (String.eqb c name).
Proof.
  unfold mem. induction l as [| x l IH]; [reflexivity |].
  cbn [filter existsb].
  destruct (String.eqb_spec c x) as [-> | Hcx]; cbn [negb].
  - rewrite IH. destruct (String.eqb_spec name x) as [-> | Hn].
    + rewrite String.eqb_refl. cbn. rewrite andb_false_r. reflexivity.
    + reflexivity.
  - cbn [existsb]. rewrite IH.
    destruct (String.eqb_spec name x) as [-> | Hn]; cbn [orb]; [| reflexivity].
    destruct (String.eqb_spec c x) as [-> | _]; [contradiction |]. reflexivity.
Qed.

(** X16.  [calculateColor] answers exactly when [generateCssColor] does.
    It then replaces the style text of the body by the declarations of
    the Theme, joined, followed by the transition when animation is
    asked for; the body has the class "dark" afterwards exactly when the
    contrast decision is ["black"]; every other class is as it was. *)
Theorem calculateColor_page :
  forall (X : Externals) (type : string) (value : jsval) (animated : bool)
         (w : world),
    (forall theme w1,
        generateCssColor X type value w = Ok (theme, w1) ->
        exists c w2,
          calculateColor X type value animated w = Ok (c, w2) /\
          calc_colors c = colors theme /\
          calc_contrast c = contrast theme /\
          calc_variable c = variable theme /\
          cssText w2 = String.concat "" (cssVariable theme)
                         ++ (if animated then transition else "") /\
          mem "dark" (classList w2) = (result (contrast theme) =? "black") /\
          (forall name, name <> "dark" ->
                        mem name (classList w2) = mem name (classList w))) /\
    (generateCssColor X type value w = Throw TypeError ->
     calculateColor X type value animated w = Throw TypeError).
Proof.
  intros X type value animated w. split.
  - intros theme w1 Hrun.
    destruct (generateCssColor_run X type value w w1 theme Hrun)
      as (ramp & dark & _ & _ & _ & _ & _ & Hw1).
    unfold calculateColor. unfold bindM at 1. rewrite Hrun.
    destruct (result (contrast theme) =? "black") eqn:Hblack;
      do 2 eexists;
      (split; [reflexivity |]); repeat (split; [reflexivity |]);
      cbn [classList arrays cssText]; rewrite Hw1; cbn [classList].
    + split.
      * unfold mem at 1. destruct (mem "dark" (classList w)) eqn:Hm.
        -- exact Hm.
        -- fold (mem "dark" (classList w ++ ["dark"])%list).
           rewrite mem_app_single, Hm. reflexivity.
      * intros name Hname.
        destruct (mem "dark" (classList w)); [reflexivity |].
        rewrite mem_app_single.
        destruct (String.eqb_spec name "dark"); [contradiction |].
        apply orb_false_r.
    + split.
      * rewrite mem_filter_other. apply andb_false_r.
      * intros name Hname. rewrite mem_filter_other.
        destruct (String.eqb_spec "dark" name) as [E | _];
          [symmetry in E; contradiction | apply andb_true_r].
  - intros Hthrow. unfold calculateColor, bindM. rewrite Hthrow. reflexivity.
Qed.

Lemma calculateColor_page_336699 :
  exists c w2,
    calculateColor Sample.externals "hex" (JStr "336699") true
      {| arrays := []; cssText := "color: red;"; classList := ["dark"; "wide"] |}
      = Ok (c, w2) /\
    classList w2 = ["wide"] /\
    mem "dark" (classList w2) = false.
Proof.
  destruct (generateCssColor Sample.externals "hex" (JStr "336699")
              {| arrays := []; cssText := "color: red;";
                 classList := ["dark"; "wide"] |})
    as [[theme w1] | e] eqn:Hr; [| vm_compute in Hr; discriminate Hr].
  destruct (calculateColor_page Sample.externals "hex" (JStr "336699") true
              {| arrays := []; cssText := "color: red;";
                 classList := ["dark"; "wide"] |}) as [Hok _].
  destruct (Hok theme w1 Hr) as (c & w2 & Hcalc & _ & _ & _ & _ & Hdark & _).
  exists c, w2. split; [exact Hcalc |].
  vm_compute in Hcalc. injection Hcalc as _ Hw2. subst w2.
  split; reflexivity.
Defined.

(** ** A random colour *)

(** X17.  As long as no draw between 1 and 255 exceeds 255, a
    random colour is a triple of numbers that passes rgb validation, and
    the YIQ heuristic decides on it without throwing.  The number of
    draws goes up by three. *)
Theorem generateRandomColor_valid :
  forall (X : Externals) (getRange : nat -> float -> float -> float)
         (drawn : nat),
    (forall n, PrimFloat.leb (getRange n 1%float 255%float) 255%float = true) ->
    colorValidate X "rgb" (fst (generateRandomColor getRange drawn))
      = Ok (JBool true) /\
    (exists c, yiqContrastRatio X (fst (generateRandomColor getRange drawn))
               = Ok c) /\
    snd (generateRandomColor getRange drawn) = (drawn + 3)%nat.
Proof.
  intros X getRange drawn Hrange. cbn [generateRandomColor fst snd map].
  split; [| split; [eexists; reflexivity | reflexivity]].
  cbn. unfold number_of_Z. cbn.
  rewrite !Hrange. reflexivity.
Qed.

Lemma generateRandomColor_valid_sample :
  colorValidate Sample.externals "rgb"
    (fst (generateRandomColor
            (fun n lo hi => if Nat.even n then lo else hi) 0))
    = Ok (JBool true) /\
  fst (generateRandomColor (fun n lo hi => if Nat.even n then lo else hi) 0)
    = JArr [JNum 1; JNum 255; JNum 1].
Proof.
  split; [| reflexivity].
  refine (proj1 (generateRandomColor_valid Sample.externals
                   (fun n lo hi => if Nat.even n then lo else hi) 0 _)).
  intros n. destruct (Nat.even n); reflexivity.
Defined.

(** ** Relative luminance and the WCAG ratio *)

Module WcagFacts.

Import Wcag.
Local Open Scope R_scope.















(** ** The range of the luminance and of the ratio *)













End WcagFacts.
